(** * devenv-mcp: the virtual-environment inventory (tools/venv.py)

    A shallow embedding of the discovery and inspection code of
    [src/devenv_mcp/tools/venv.py], with the two helpers it relies on
    ([utils/commands.py] : [run_command], [utils/platform.py] :
    [PlatformHelper]), and the properties of the Locator, Validator, Prober and
    Fan-out Coordinator.

    Conventions of the model.
    - A Python [str] is a [string]; every [ascii] stands for one character
      (the code points below 256).  Decoded JSON strings, which may hold any
      code point, are lists of [N].
    - A resolved absolute path is the list of its segments below the root.
    - The file system is a tree; a directory keeps its entries in listing
      order.  Symbolic links and permissions are outside the model.
    - Subprocesses are an oracle of the host: what a command does is a
      function of the file system, the argument vector and the timeout.
    - A coroutine is a state transformer over the [World]; Python exceptions
      are the [Raise] outcome. *)

From Stdlib Require Import ZArith Ascii String List Bool Lia.
From stdpp Require Import base tactics option list strings pretty.

Set Warnings "-register-all".

Local Open Scope string_scope.
Local Open Scope list_scope.

(** ** Python [str] primitives *)

Module PyStr.

(** [str.isspace] on one character: the Unicode white space below 256. *)
Definition isspace (c : ascii) : bool :=
  let n := N_of_ascii c in
  ((9 <=? n) && (n <=? 13) || (28 <=? n) && (n <=? 32)
   || (n =? 133) || (n =? 160))%N.

Fixpoint lstrip (s : string) : string :=
  match s with
  | EmptyString => EmptyString
  | String c r => if isspace c then lstrip r else s
  end.

Fixpoint rstrip (s : string) : string :=
  match s with
  | EmptyString => EmptyString
  | String c r =>
      match rstrip r with
      | EmptyString => if isspace c then EmptyString else String c EmptyString
      | r' => String c r'
      end
  end.

(** [s.strip()] *)
Definition strip (s : string) : string := rstrip (lstrip s).

(** [s.startswith(p)] *)
Fixpoint startswith (p s : string) : bool :=
  match p, s with
  | EmptyString, _ => true
  | String a p', String b s' => Ascii.eqb a b && startswith p' s'
  | String _ _, EmptyString => false
  end.

(** [s[n:]] *)
Fixpoint slice_from (n : nat) (s : string) : string :=
  match n, s with
  | O, _ => s
  | S n', String _ r => slice_from n' r
  | S _, EmptyString => EmptyString
  end.

(** [sep.join(parts)] *)
Fixpoint join (sep : string) (parts : list string) : string :=
  match parts with
  | [] => EmptyString
  | [x] => x
  | x :: rest => x ++ sep ++ join sep rest
  end.

(** [s.replace(a, t)] for a one-character [a]. *)
Fixpoint replace_char (a : ascii) (t : string) (s : string) : string :=
  match s with
  | EmptyString => EmptyString
  | String c r =>
      if Ascii.eqb c a then t ++ replace_char a t r
      else String c (replace_char a t r)
  end.

Fixpoint all_chars (P : ascii -> bool) (s : string) : bool :=
  match s with
  | EmptyString => true
  | String c r => P c && all_chars P r
  end.

(** Truthiness of a string: [bool(s)]. *)
Definition truthy (s : string) : bool :=
  match s with EmptyString => false | _ => true end.

(** [a or b] on strings. *)
Definition or_else (a b : string) : string := if truthy a then a else b.

Definition dquote : string := String "034"%char EmptyString.
Definition squote : string := String "039"%char EmptyString.

Definition in_range (lo hi c : ascii) : bool :=
  ((N_of_ascii lo <=? N_of_ascii c) && (N_of_ascii c <=? N_of_ascii hi))%N.

(** [shlex.quote]: a word of safe characters is left alone, anything else is
    wrapped in single quotes. *)
Definition shlex_safe (c : ascii) : bool :=
  in_range "a" "z" c || in_range "A" "Z" c || in_range "0" "9" c
  || existsb (Ascii.eqb c)
       ["_"; "@"; "%"; "+"; "="; ":"; ","; "."; "/"; "-"]%char.

Definition shlex_quote (s : string) : string :=
  match s with
  | EmptyString => squote ++ squote
  | _ =>
      if all_chars shlex_safe s then s
      else squote
           ++ replace_char "039"%char
                (squote ++ dquote ++ squote ++ dquote ++ squote) s
           ++ squote
  end.

End PyStr.

(** ** [json.loads] and [len]

    The decoder of Python's [json] package on a [str] document, with the
    default options (strict strings; [NaN], [Infinity] and [-Infinity]
    accepted).  Two things are outside the model: the interpreter's recursion
    limit and its limit on the number of digits of an integer literal. *)

Module Json.

(** The Python values a JSON document decodes to.  Numbers keep their
    literal. *)
Inductive pyval : Type :=
| PNone
| PBool (b : bool)
| PInt (lit : string)
| PFloat (lit : string)
| PStr (s : list N)
| PList (items : list pyval)
| PDict (pairs : list (list N * pyval)).

Inductive res (A : Type) : Type :=
| Parsed (a : A) (rest : list ascii)
| DecodeError
| OutOfFuel.
Arguments Parsed {A} a rest.
Arguments DecodeError {A}.
Arguments OutOfFuel {A}.

Definition dq : ascii := "034"%char.
Definition backslash : ascii := "092"%char.

Definition is_ws (c : ascii) : bool :=
  existsb (Ascii.eqb c) [" "; "009"; "010"; "013"]%char.

Fixpoint skip_ws (s : list ascii) : list ascii :=
  match s with
  | c :: r => if is_ws c then skip_ws r else s
  | [] => []
  end.

Definition is_digit (c : ascii) : bool := PyStr.in_range "0" "9" c.

Fixpoint span_digits (s : list ascii) : list ascii * list ascii :=
  match s with
  | c :: r =>
      if is_digit c then let '(ds, r') := span_digits r in (c :: ds, r')
      else ([], s)
  | [] => ([], [])
  end.

Definition hexval (c : ascii) : option N :=
  let n := N_of_ascii c in
  if PyStr.in_range "0" "9" c then Some (n - 48)%N
  else if PyStr.in_range "a" "f" c then Some (n - 87)%N
  else if PyStr.in_range "A" "F" c then Some (n - 55)%N
  else None.

Definition hex4 (a b c d : ascii) : option N :=
  match hexval a, hexval b, hexval c, hexval d with
  | Some x, Some y, Some z, Some w => Some (((x * 16 + y) * 16 + z) * 16 + w)%N
  | _, _, _, _ => None
  end.

Definition is_high_surrogate (u : N) : bool := ((55296 <=? u) && (u <=? 56319))%N.
Definition is_low_surrogate (u : N) : bool := ((56320 <=? u) && (u <=? 57343))%N.
Definition join_surrogates (hi lo : N) : N :=
  (65536 + N.lor (N.shiftl (hi - 55296) 10) (lo - 56320))%N.

(** The [BACKSLASH] table of the decoder. *)
Definition unescape (e : ascii) : option N :=
  if Ascii.eqb e dq then Some 34%N
  else if Ascii.eqb e backslash then Some 92%N
  else if Ascii.eqb e "/" then Some 47%N
  else if Ascii.eqb e "b" then Some 8%N
  else if Ascii.eqb e "f" then Some 12%N
  else if Ascii.eqb e "n" then Some 10%N
  else if Ascii.eqb e "r" then Some 13%N
  else if Ascii.eqb e "t" then Some 9%N
  else None.

Definition push (c : N) (r : option (list N * list ascii)) :
  option (list N * list ascii) :=
  match r with
  | Some (cs, rest) => Some (c :: cs, rest)
  | None => None
  end.

(** [scanstring]: the text after an opening quote, up to the closing one. *)
Fixpoint scanstring (s : list ascii) : option (list N * list ascii) :=
  match s with
  | [] => None
  | c :: r =>
      if Ascii.eqb c dq then Some ([], r)
      else if Ascii.eqb c backslash then
        match r with
        | [] => None
        | e :: r1 =>
            if Ascii.eqb e "u" then
              match r1 with
              | h1 :: h2 :: h3 :: h4 :: r2 =>
                  match hex4 h1 h2 h3 h4 with
                  | None => None
                  | Some uni =>
                      match r2 with
                      | b :: u :: k1 :: k2 :: k3 :: k4 :: r3 =>
                          if is_high_surrogate uni && Ascii.eqb b backslash
                             && Ascii.eqb u "u"
                          then
                            match hex4 k1 k2 k3 k4 with
                            | None => None
                            | Some uni2 =>
                                if is_low_surrogate uni2
                                then push (join_surrogates uni uni2) (scanstring r3)
                                else push uni (scanstring r2)
                            end
                          else push uni (scanstring r2)
                      | _ => push uni (scanstring r2)
                      end
                  end
              | _ => None
              end
            else
              match unescape e with
              | Some ch => push ch (scanstring r1)
              | None => None
              end
        end
      else if (N_of_ascii c <? 32)%N then None
      else push (N_of_ascii c) (scanstring r)
  end.

(** [s] starts with the literal [lit]: what follows it. *)
Fixpoint after (lit : string) (s : list ascii) : option (list ascii) :=
  match lit, s with
  | EmptyString, _ => Some s
  | String a lit', b :: s' => if Ascii.eqb a b then after lit' s' else None
  | String _ _, [] => None
  end.

(** [NUMBER_RE]: an optional minus sign and an integer part (a single zero,
    or a non-zero digit and more digits), then optionally a fraction (a dot
    and digits), then optionally an exponent (e or E, an optional sign,
    digits). *)
Definition scan_int (s : list ascii) : option (list ascii * list ascii) :=
  let '(sign, s1) :=
    match s with
    | c :: r => if Ascii.eqb c "-" then ([c], r) else ([], s)
    | [] => ([], s)
    end in
  match s1 with
  | d :: r =>
      if Ascii.eqb d "0" then Some (sign ++ [d], r)
      else if is_digit d then
        let '(ds, r') := span_digits r in Some (sign ++ d :: ds, r')
      else None
  | [] => None
  end.

Definition scan_frac (s : list ascii) : list ascii * list ascii :=
  match s with
  | p :: d :: r =>
      if Ascii.eqb p "." && is_digit d then
        let '(ds, r') := span_digits r in (p :: d :: ds, r')
      else ([], s)
  | _ => ([], s)
  end.

Definition scan_exp (s : list ascii) : list ascii * list ascii :=
  match s with
  | e :: r =>
      if Ascii.eqb e "e" || Ascii.eqb e "E" then
        let '(sign, r1) :=
          match r with
          | c :: r' =>
              if Ascii.eqb c "-" || Ascii.eqb c "+" then ([c], r') else ([], r)
          | [] => ([], r)
          end in
        match r1 with
        | d :: r2 =>
            if is_digit d then
              let '(ds, r3) := span_digits r2 in (e :: sign ++ d :: ds, r3)
            else ([], s)
        | [] => ([], s)
        end
      else ([], s)
  | [] => ([], s)
  end.

Definition scan_number (s : list ascii) : option (pyval * list ascii) :=
  match scan_int s with
  | None => None
  | Some (integer, r) =>
      let '(frac, r1) := scan_frac r in
      let '(exp, r2) := scan_exp r1 in
      match frac, exp with
      | [], [] => Some (PInt (string_of_list_ascii integer), r2)
      | _, _ => Some (PFloat (string_of_list_ascii (integer ++ frac ++ exp)), r2)
      end
  end.

(** [dict(pairs)]: a later pair with a key already present replaces the
    value and keeps the key's place. *)
Fixpoint dict_set (k : list N) (v : pyval) (d : list (list N * pyval)) :
  list (list N * pyval) :=
  match d with
  | [] => [(k, v)]
  | (k', v') :: d' =>
      if decide (k = k') then (k', v) :: d' else (k', v') :: dict_set k v d'
  end.

Definition dict_of_pairs (ps : list (list N * pyval)) : list (list N * pyval) :=
  fold_left (fun d kv => dict_set kv.1 kv.2 d) ps [].

(** Constants and numbers, tried in the scanner's order. *)
Definition scan_atom (s : list ascii) : res pyval :=
  match after "null" s with
  | Some r => Parsed PNone r
  | None =>
  match after "true" s with
  | Some r => Parsed (PBool true) r
  | None =>
  match after "false" s with
  | Some r => Parsed (PBool false) r
  | None =>
  match scan_number s with
  | Some (v, r) => Parsed v r
  | None =>
  match after "NaN" s with
  | Some r => Parsed (PFloat "NaN") r
  | None =>
  match after "Infinity" s with
  | Some r => Parsed (PFloat "Infinity") r
  | None =>
  match after "-Infinity" s with
  | Some r => Parsed (PFloat "-Infinity") r
  | None => DecodeError
  end end end end end end end.

(** [_scan_once], [JSONArray] and [JSONObject].  [array_items] stands before
    an element, [object_pairs] just after the opening quote of a key. *)
Fixpoint scan_once (fuel : nat) (s : list ascii) : res pyval :=
  match fuel with
  | O => OutOfFuel
  | S fuel' =>
      match s with
      | [] => DecodeError
      | c :: r =>
          if Ascii.eqb c dq then
            match scanstring r with
            | Some (cs, rest) => Parsed (PStr cs) rest
            | None => DecodeError
            end
          else if Ascii.eqb c "{" then
            match skip_ws r with
            | q :: rest =>
                if Ascii.eqb q "}" then Parsed (PDict []) rest
                else if Ascii.eqb q dq then object_pairs fuel' rest []
                else DecodeError
            | [] => DecodeError
            end
          else if Ascii.eqb c "[" then
            match skip_ws r with
            | q :: rest =>
                if Ascii.eqb q "]" then Parsed (PList []) rest
                else array_items fuel' (q :: rest) []
            | [] => DecodeError
            end
          else scan_atom s
      end
  end
with array_items (fuel : nat) (s : list ascii) (acc : list pyval) : res pyval :=
  match fuel with
  | O => OutOfFuel
  | S fuel' =>
      match scan_once fuel' s with
      | Parsed v rest =>
          match skip_ws rest with
          | c :: rest' =>
              if Ascii.eqb c "]" then Parsed (PList (rev (v :: acc))) rest'
              else if Ascii.eqb c ","
                   then array_items fuel' (skip_ws rest') (v :: acc)
                   else DecodeError
          | [] => DecodeError
          end
      | DecodeError => DecodeError
      | OutOfFuel => OutOfFuel
      end
  end
with object_pairs (fuel : nat) (s : list ascii) (acc : list (list N * pyval)) :
  res pyval :=
  match fuel with
  | O => OutOfFuel
  | S fuel' =>
      match scanstring s with
      | None => DecodeError
      | Some (key, r) =>
          match skip_ws r with
          | c :: r1 =>
              if Ascii.eqb c ":" then
                match scan_once fuel' (skip_ws r1) with
                | Parsed v rest =>
                    match skip_ws rest with
                    | d :: rest' =>
                        if Ascii.eqb d "}" then
                          Parsed (PDict (dict_of_pairs (rev ((key, v) :: acc)))) rest'
                        else if Ascii.eqb d "," then
                          match skip_ws rest' with
                          | q :: r2 =>
                              if Ascii.eqb q dq
                              then object_pairs fuel' r2 ((key, v) :: acc)
                              else DecodeError
                          | [] => DecodeError
                          end
                        else DecodeError
                    | [] => DecodeError
                    end
                | DecodeError => DecodeError
                | OutOfFuel => OutOfFuel
                end
              else DecodeError
          | [] => DecodeError
          end
      end
  end.

(** What [json.loads] gives: a value, or [json.JSONDecodeError]. *)
Inductive loaded : Type :=
| Value (v : pyval)
| JSONDecodeError.

Definition decode (cs : list ascii) : res pyval :=
  scan_once (2 * length cs + 1) (skip_ws cs).

Definition loads (s : string) : loaded :=
  match decode (list_ascii_of_string s) with
  | Parsed v rest =>
      match skip_ws rest with
      | [] => Value v
      | _ :: _ => JSONDecodeError
      end
  | DecodeError | OutOfFuel => JSONDecodeError
  end.

(** [type(v).__name__] *)
Definition type_name (v : pyval) : string :=
  match v with
  | PNone => "NoneType"
  | PBool _ => "bool"
  | PInt _ => "int"
  | PFloat _ => "float"
  | PStr _ => "str"
  | PList _ => "list"
  | PDict _ => "dict"
  end.

(** [len(v)]: [None] stands for the [TypeError] of a value without length. *)
Definition len (v : pyval) : option Z :=
  match v with
  | PStr s => Some (Z.of_nat (length s))
  | PList items => Some (Z.of_nat (length items))
  | PDict pairs => Some (Z.of_nat (length pairs))
  | PNone | PBool _ | PInt _ | PFloat _ => None
  end.

End Json.

(** ** [fnmatch.fnmatch]

    Shell patterns as the [fnmatch] module reads them: a star matches any run
    of characters, a question mark any one character, a bracket expression a
    set of characters, and a bracket that is never closed stands for itself.
    The module compiles a pattern to a regular expression that must match the
    whole name; the matcher below decides the same language by backtracking. *)

Module Fnmatch.

Inductive item : Type :=
| Single (c : ascii)
| Range (lo hi : ascii).

Inductive tok : Type :=
| Star
| AnyChar
| Never
| Lit (c : ascii)
| Class (negated : bool) (items : list item).

Definition gt (a b : ascii) : bool := (N_of_ascii b <? N_of_ascii a)%N.

Fixpoint break_at (stop : ascii) (s : list ascii) : option (list ascii) :=
  match s with
  | [] => None
  | c :: r =>
      if Ascii.eqb c stop then Some []
      else match break_at stop r with
           | Some body => Some (c :: body)
           | None => None
           end
  end.

(** The text between an opening bracket and the bracket that closes it: a
    leading exclamation mark and then a leading closing bracket belong to
    the set. *)
Definition bracket (s : list ascii) : option (list ascii) :=
  let '(pre1, s1) :=
    match s with
    | c :: r => if Ascii.eqb c "!" then ([c], r) else ([], s)
    | [] => ([], s)
    end in
  let '(pre2, s2) :=
    match s1 with
    | c :: r => if Ascii.eqb c "]" then ([c], r) else ([], s1)
    | [] => ([], s1)
    end in
  match break_at "]" s2 with
  | Some body => Some (pre1 ++ pre2 ++ body)
  | None => None
  end.

(** The set is cut at the hyphens that stand between two characters; the
    first position (two, after an exclamation mark) and the two positions
    after a cut are never cut. *)
Fixpoint split_go (skip : nat) (cur : list ascii) (s : list ascii) :
  list (list ascii) :=
  match s with
  | [] => [rev cur]
  | c :: r =>
      match skip with
      | S k => split_go k (c :: cur) r
      | O =>
          if Ascii.eqb c "-" then rev cur :: split_go 2 [] r
          else split_go 0 (c :: cur) r
      end
  end.

Definition split_ranges (stuff : list ascii) : list (list ascii) :=
  let start := match stuff with
               | c :: _ => if Ascii.eqb c "!" then 2 else 1
               | [] => 1
               end in
  let chunks := split_go start [] stuff in
  match rev chunks with
  | [] :: prev :: before => rev ((prev ++ ["-"%char]) :: before)
  | _ => chunks
  end.

(** Ranges whose start is above their end are removed, from the right. *)
Fixpoint remove_empty_ranges (chunks : list (list ascii)) : list (list ascii) :=
  match chunks with
  | [] => []
  | c :: rest =>
      match remove_empty_ranges rest with
      | [] => [c]
      | d :: rest' =>
          match last c, head d with
          | Some a, Some b =>
              if gt a b then (removelast c ++ tail d) :: rest'
              else c :: d :: rest'
          | _, _ => c :: d :: rest'
          end
      end
  end.

(** A character of the set, or the hyphen that joins two chunks. *)
Inductive ctok : Type :=
| CChar (c : ascii)
| CHyphen.

Definition ctok_char (t : ctok) : ascii :=
  match t with CChar c => c | CHyphen => "-"%char end.

Fixpoint ctoks (chunks : list (list ascii)) : list ctok :=
  match chunks with
  | [] => []
  | [c] => map CChar c
  | c :: rest => map CChar c ++ CHyphen :: ctoks rest
  end.

(** How the regular-expression compiler reads the set. *)
Fixpoint class_items (ts : list ctok) : list item :=
  match ts with
  | [] => []
  | x :: rest =>
      match rest with
      | CHyphen :: y :: rest' =>
          Range (ctok_char x) (ctok_char y) :: class_items rest'
      | _ => Single (ctok_char x) :: class_items rest
      end
  end.

Definition class_of (stuff : list ascii) : tok :=
  let chunks :=
    if existsb (Ascii.eqb "-") stuff
    then remove_empty_ranges (split_ranges stuff)
    else [stuff] in
  match ctoks chunks with
  | [] => Never
  | [CChar c] =>
      if Ascii.eqb c "!" then AnyChar else Class false [Single c]
  | CChar c :: rest =>
      if Ascii.eqb c "!" then Class true (class_items rest)
      else Class false (class_items (CChar c :: rest))
  | ts => Class false (class_items ts)
  end.

Fixpoint translate_from (skip : nat) (pat : list ascii) : list tok :=
  match pat with
  | [] => []
  | c :: r =>
      match skip with
      | S k => translate_from k r
      | O =>
          if Ascii.eqb c "*" then Star :: translate_from 0 r
          else if Ascii.eqb c "?" then AnyChar :: translate_from 0 r
          else if Ascii.eqb c "[" then
            match bracket r with
            | None => Lit c :: translate_from 0 r
            | Some stuff => class_of stuff :: translate_from (S (length stuff)) r
            end
          else Lit c :: translate_from 0 r
      end
  end.

(** Consecutive stars are one star. *)
Fixpoint compress (ts : list tok) : list tok :=
  match ts with
  | Star :: ((Star :: _) as rest) => compress rest
  | t :: rest => t :: compress rest
  | [] => []
  end.

Definition translate (pat : string) : list tok :=
  compress (translate_from 0 (list_ascii_of_string pat)).

Definition item_matches (c : ascii) (i : item) : bool :=
  match i with
  | Single a => Ascii.eqb a c
  | Range lo hi => PyStr.in_range lo hi c
  end.

Definition tok_matches (t : tok) (c : ascii) : bool :=
  match t with
  | Star | AnyChar => true
  | Never => false
  | Lit a => Ascii.eqb a c
  | Class negated items => xorb negated (existsb (item_matches c) items)
  end.

Fixpoint glob_match (ts : list tok) (s : list ascii) : bool :=
  match ts with
  | [] => match s with [] => true | _ :: _ => false end
  | Star :: ts' =>
      (fix star (s : list ascii) : bool :=
         glob_match ts' s
         || match s with [] => false | _ :: s' => star s' end) s
  | t :: ts' =>
      match s with
      | [] => false
      | c :: s' => tok_matches t c && glob_match ts' s'
      end
  end.

Definition fnmatchcase (name pat : string) : bool :=
  glob_match (translate pat) (list_ascii_of_string name).

Definition lower (c : ascii) : ascii :=
  let n := N_of_ascii c in
  if ((65 <=? n) && (n <=? 90) || (192 <=? n) && (n <=? 222) && negb (n =? 215))%N
  then ascii_of_N (n + 32) else c.

Fixpoint map_chars (f : ascii -> ascii) (s : string) : string :=
  match s with
  | EmptyString => EmptyString
  | String c r => String (f c) (map_chars f r)
  end.

(** [os.path.normcase]: the identity on POSIX; on Windows, slashes become
    backslashes and letters lower case. *)
Definition normcase (windows_host : bool) (s : string) : string :=
  if windows_host
  then map_chars (fun c => if Ascii.eqb c "/" then "092"%char else lower c) s
  else s.

Definition fnmatch (windows_host : bool) (name pat : string) : bool :=
  fnmatchcase (normcase windows_host name) (normcase windows_host pat).

End Fnmatch.

(** ** Paths and the file system *)

(** A resolved absolute path: its segments below the root. *)
Abbreviation Path := (list string).

Module Fs.

Inductive node : Type :=
| File
| Dir (entries : list (string * node)).

Fixpoint entry (name : string) (es : list (string * node)) : option node :=
  match es with
  | [] => None
  | (n, x) :: es' => if String.eqb n name then Some x else entry name es'
  end.

Fixpoint lookup (root : node) (p : Path) : option node :=
  match p with
  | [] => Some root
  | seg :: p' =>
      match root with
      | File => None
      | Dir es =>
          match entry seg es with
          | Some child => lookup child p'
          | None => None
          end
      end
  end.

(** [p.exists()] *)
Definition path_exists (root : node) (p : Path) : bool :=
  match lookup root p with Some _ => true | None => false end.

(** [p.is_dir()] *)
Definition is_dir (root : node) (p : Path) : bool :=
  match lookup root p with Some (Dir _) => true | _ => false end.

(** [p.iterdir()], in listing order. *)
Definition iterdir (root : node) (p : Path) : list Path :=
  match lookup root p with
  | Some (Dir es) => map (fun e => p ++ [e.1]) es
  | _ => []
  end.

Fixpoint fresh_dirs (p : Path) : node :=
  match p with
  | [] => Dir []
  | seg :: p' => Dir [(seg, fresh_dirs p')]
  end.

Fixpoint set_entry (name : string) (x : node) (es : list (string * node)) :
  list (string * node) :=
  match es with
  | [] => [(name, x)]
  | (n, y) :: es' =>
      if String.eqb n name then (n, x) :: es' else (n, y) :: set_entry name x es'
  end.

(** [p.mkdir(parents=True, exist_ok=True)]; [None] when a file is in the
    way. *)
Fixpoint mkdir_parents (root : node) (p : Path) : option node :=
  match root with
  | File => None
  | Dir es =>
      match p with
      | [] => Some root
      | seg :: p' =>
          match entry seg es with
          | Some child =>
              match mkdir_parents child p' with
              | Some child' => Some (Dir (set_entry seg child' es))
              | None => None
              end
          | None => Some (Dir (es ++ [(seg, fresh_dirs p')]))
          end
      end
  end.

End Fs.

(** [venv_path.name]: the final segment. *)
Definition path_name (p : Path) : string := List.last p EmptyString.

(** [parent / name], for a [name] that is a single segment. *)
Definition path_div (p : Path) (name : string) : Path := p ++ [name].
Infix "//" := path_div (at level 40, left associativity).

(** ** utils/platform.py *)

Inductive PlatformType : Type := windows | macos | linux.

Definition is_windows (pf : PlatformType) : bool :=
  match pf with windows => true | _ => false end.

(** ** utils/commands.py *)

Record CommandResult : Type := {
  returncode : Z;
  stdout : string;
  stderr : string;
  command : string
}.

(** The [success] property. *)
Definition success (r : CommandResult) : bool := (returncode r =? 0)%Z.

(** The exceptions of the model. *)
Inductive exn : Type :=
| TimeoutError
| CommandError (result : CommandResult)
| OSError (msg : string)
| TypeError (msg : string)
| FileExistsError (msg : string)
| RuntimeError (msg : string).

Inductive outcome (A : Type) : Type :=
| Ret (a : A)
| Raise (e : exn).
Arguments Ret {A} a.
Arguments Raise {A} e.

(** What happens to a subprocess between [create_subprocess_exec] and the
    end of [wait_for(process.communicate(), timeout)]: it ends with a return
    code and its two streams (as decoded text), the wait times out, the
    program is not found, or another error is raised. *)
Inductive proc_event : Type :=
| Exited (code : option Z) (out err : string)
| TimedOut
| NotFound (filename : string)
| Failed (e : exn).

(** The host: platform, home and current directories, and the behaviour of
    commands (argument vector and timeout in seconds), which may read and
    change the file system. *)
Record Host : Type := {
  get_platform : PlatformType;
  get_home_directory : Path;
  getcwd : Path;
  exec : Fs.node -> list string -> Z -> proc_event * Fs.node
}.

(** Messages sent to the client through [ctx]. *)
Inductive ctx_msg : Type :=
| Info (msg : string)
| Warning (msg : string)
| Error (msg : string).

Record World : Type := {
  fs : Fs.node;
  spawn_calls : list (list string);
  ctx_log : list ctx_msg
}.

(** Coroutines. *)
Definition M (A : Type) : Type := World -> outcome A * World.

Definition ret {A} (a : A) : M A := fun w => (Ret a, w).
Definition raise {A} (e : exn) : M A := fun w => (Raise e, w).
Definition bind {A B} (m : M A) (k : A -> M B) : M B :=
  fun w => match m w with
           | (Ret a, w') => k a w'
           | (Raise e, w') => (Raise e, w')
           end.
(** [try: m  except Exception as e: handler e] *)
Definition try_except {A} (m : M A) (handler : exn -> M A) : M A :=
  fun w => match m w with
           | (Ret a, w') => (Ret a, w')
           | (Raise e, w') => handler e w'
           end.

Notation "'do' x <- m ; k" := (bind m (fun x => k))
  (at level 10, x name, m at level 100, k at level 200).
Notation "m ;; k" := (bind m (fun _ => k))
  (at level 100, k at level 200, right associativity).

Definition read_fs : M Fs.node := fun w => (Ret (fs w), w).
Definition ctx_send (m : ctx_msg) : M unit :=
  fun w => (Ret tt, {| fs := fs w; spawn_calls := spawn_calls w;
                       ctx_log := ctx_log w ++ [m] |}).

(** [str(path)] *)
Definition path_str (H : Host) (p : Path) : string :=
  let sep := if is_windows (get_platform H) then String "092" EmptyString else "/" in
  sep ++ PyStr.join sep p.

Definition get_venv_python_path (H : Host) (venv_path : Path) : Path :=
  if is_windows (get_platform H)
  then venv_path // "Scripts" // "python.exe"
  else venv_path // "bin" // "python".

Definition get_venv_pip_path (H : Host) (venv_path : Path) : Path :=
  if is_windows (get_platform H)
  then venv_path // "Scripts" // "pip.exe"
  else venv_path // "bin" // "pip".

Definition get_default_venv_location (H : Host) : Path :=
  get_home_directory H // ".venvs".

(** [run_command(command, timeout=..., check=...)] for a command given as a
    list, without a shell. *)
Definition run_command (H : Host) (cmd : list string) (timeout : Z)
  (check : bool) : M CommandResult :=
  fun w =>
    let command_str := PyStr.join " " (map PyStr.shlex_quote cmd) in
    let '(ev, fs') := exec H (fs w) cmd timeout in
    let w' := {| fs := fs'; spawn_calls := spawn_calls w ++ [cmd];
                 ctx_log := ctx_log w |} in
    match ev with
    | Exited code out err =>
        let result := {| returncode := default 0%Z code;
                         stdout := PyStr.strip out;
                         stderr := PyStr.strip err;
                         command := command_str |} in
        if check && negb (success result)
        then (Raise (CommandError result), w')
        else (Ret result, w')
    | TimedOut => (Raise TimeoutError, w')
    | NotFound filename =>
        (Ret {| returncode := 127;
                stdout := EmptyString;
                stderr := "Command not found: " ++ filename;
                command := command_str |}, w')
    | Failed e => (Raise e, w')
    end.

(** ** tools/venv.py *)

Record VenvInfo : Type := {
  name : string;
  path : string;
  python_version : string;
  packages_count : Z;
  is_valid : bool
}.

Definition _is_valid_venv (H : Host) (root : Fs.node) (venv_path : Path) : bool :=
  let python_path := get_venv_python_path H venv_path in
  Fs.path_exists root python_path.

(** [asyncio.gather(t1, t2, return_exceptions=True)]: both coroutines run;
    what each one returned or raised is a value of the result. *)
Definition gather_return_exceptions {A B} (t1 : M A) (t2 : M B) :
  M (outcome A * outcome B) :=
  fun w =>
    let '(r1, w1) := t1 w in
    let '(r2, w2) := t2 w1 in
    (Ret (r1, r2), w2).

Definition version_cmd (H : Host) (venv_path : Path) : list string :=
  [path_str H (get_venv_python_path H venv_path); "--version"].

Definition packages_cmd (H : Host) (venv_path : Path) : list string :=
  [path_str H (get_venv_pip_path H venv_path); "list"; "--format=json"].

Definition _get_venv_info (H : Host) (venv_path : Path) : M VenvInfo :=
  let name := path_name venv_path in
  let path_str := path_str H venv_path in
  let python_path := get_venv_python_path H venv_path in
  do root <- read_fs;
  if negb (Fs.path_exists root python_path) then
    ret {| name := name; path := path_str; python_version := "unknown";
           packages_count := 0; is_valid := false |}
  else
    let version_task := run_command H (version_cmd H venv_path) 10 false in
    let packages_task := run_command H (packages_cmd H venv_path) 30 false in
    do gathered <-
      try_except
        (do results <- gather_return_exceptions version_task packages_task;
         ret (inl results))
        (fun e =>
           ret (inr {| name := name; path := path_str;
                       python_version := "unknown";
                       packages_count := 0; is_valid := false |}));
    match gathered with
    | inr info => ret info
    | inl (version_result, packages_result) =>
        let python_version :=
          match version_result with
          | Ret r =>
              if success r then
                let version_output := PyStr.strip (stdout r) in
                if PyStr.startswith "Python " version_output
                then PyStr.slice_from 7 version_output
                else "unknown"
              else "unknown"
          | Raise _ => "unknown"
          end in
        do packages_count <-
          match packages_result with
          | Ret r =>
              if success r then
                match Json.loads (stdout r) with
                | Json.Value packages =>
                    match Json.len packages with
                    | Some n => ret n
                    | None =>
                        raise (TypeError ("object of type '"
                                          ++ Json.type_name packages
                                          ++ "' has no len()"))
                    end
                | Json.JSONDecodeError => ret 0%Z
                end
              else ret 0%Z
          | Raise _ => ret 0%Z
          end;
        let is_valid :=
          match version_result with
          | Ret r => success r && negb (String.eqb python_version "unknown")
          | Raise _ => false
          end in
        ret {| name := name; path := path_str;
               python_version := python_version;
               packages_count := packages_count; is_valid := is_valid |}
    end.

Definition local_venv_names : list string := ["venv"; ".venv"].

Definition _discover_venvs (H : Host) (root : Fs.node) (working_dir : Path)
  (include_global : bool) (name_pattern : option string) : list Path :=
  let discovered := [] in
  let discovered :=
    fold_left
      (fun discovered venv_name =>
         let venv_path := working_dir // venv_name in
         if Fs.path_exists root venv_path && Fs.is_dir root venv_path
            && _is_valid_venv H root venv_path
         then discovered ++ [venv_path] else discovered)
      local_venv_names discovered in
  let discovered :=
    if include_global then
      let global_venvs_dir := get_default_venv_location H in
      if Fs.path_exists root global_venvs_dir && Fs.is_dir root global_venvs_dir
      then
        fold_left
          (fun discovered child =>
             if Fs.is_dir root child && _is_valid_venv H root child
             then discovered ++ [child] else discovered)
          (Fs.iterdir root global_venvs_dir) discovered
      else discovered
    else discovered in
  match name_pattern with
  | Some pat =>
      if PyStr.truthy pat then
        List.filter
          (fun venv_path =>
             Fnmatch.fnmatch (is_windows (get_platform H)) (path_name venv_path) pat)
          discovered
      else discovered
  | None => discovered
  end.

(** [asyncio.gather] over a list of coroutines.  The coroutines run to their ends ([run_all]
    threads the world through them in the order they were started).  They
    complete in an order the event loop decides: [sched] gives, at each
    completion, which of the pending coroutines is the next to finish (its
    position among the pending ones, modulo their number).  A result is stored
    in the slot of its coroutine; the first exception to arrive is raised to
    the awaiter; when every slot is filled, the slots are the result. *)
Fixpoint run_all {A} (tasks : list (M A)) (w : World) : list (outcome A) * World :=
  match tasks with
  | [] => ([], w)
  | t :: ts =>
      let '(r, w1) := t w in
      let '(rs, w2) := run_all ts w1 in
      (r :: rs, w2)
  end.

Fixpoint collect_slots {A} (slots : list (option A)) : option (list A) :=
  match slots with
  | [] => Some []
  | Some a :: rest =>
      match collect_slots rest with
      | Some l => Some (a :: l)
      | None => None
      end
  | None :: _ => None
  end.

Fixpoint gather_complete {A} (n : nat) (pending sched : list nat)
  (outs : list (outcome A)) (slots : list (option A)) : outcome (list A) :=
  match n with
  | O =>
      match collect_slots slots with
      | Some results => Ret results
      | None => Raise (RuntimeError "a coroutine never completed")
      end
  | S n' =>
      let k := (hd 0 sched mod length pending)%nat in
      match pending !! k with
      | Some i =>
          match outs !! i with
          | Some (Ret a) =>
              gather_complete n' (delete k pending) (tl sched) outs
                (<[i := Some a]> slots)
          | Some (Raise e) => Raise e
          | None => Raise (RuntimeError "no such coroutine")
          end
      | None => Raise (RuntimeError "nothing is pending")
      end
  end.

Definition gather {A} (sched : list nat) (tasks : list (M A)) : M (list A) :=
  fun w =>
    let '(outs, w') := run_all tasks w in
    (gather_complete (length outs) (seq 0 (length outs)) sched outs
       (replicate (length outs) None), w').

Definition devenv_venv_list (H : Host) (sched : list nat) (working_dir : Path)
  (include_global : bool) (name_pattern : option string) : M (list VenvInfo) :=
  let work_path := working_dir in
  do root <- read_fs;
  do work_path <-
    (if negb (Fs.path_exists root work_path) then
       ctx_send (Warning ("Working directory does not exist: "
                          ++ path_str H work_path));;
       ret (getcwd H)
     else ret work_path);
  ctx_send (Info ("Searching for venvs in " ++ path_str H work_path));;
  (if include_global then
     let global_path := get_default_venv_location H in
     ctx_send (Info ("Also searching in " ++ path_str H global_path))
   else ret tt);;
  do root <- read_fs;
  let venv_paths :=
    _discover_venvs H root work_path include_global name_pattern in
  match venv_paths with
  | [] =>
      ctx_send (Info "No virtual environments found");;
      ret []
  | _ :: _ =>
      ctx_send (Info ("Found " ++ pretty (length venv_paths)
                      ++ " venv(s), gathering details..."));;
      do venv_infos <- gather sched (map (_get_venv_info H) venv_paths);
      let valid_count := length (List.filter is_valid venv_infos) in
      ctx_send (Info ("Retrieved info for " ++ pretty (length venv_infos)
                      ++ " venv(s) (" ++ pretty valid_count ++ " valid)"));;
      ret venv_infos
  end.

Definition mkdir_parents (p : Path) : M unit :=
  fun w =>
    match Fs.mkdir_parents (fs w) p with
    | Some root' =>
        (Ret tt, {| fs := root'; spawn_calls := spawn_calls w;
                    ctx_log := ctx_log w |})
    | None => (Raise (FileExistsError "a file is in the way"), w)
    end.

(** *** pathlib: a text joined to a path

    [devenv_venv_create] builds its target with [parent_dir / name], where
    [name] is any text: pathlib cuts it at the separators, drops the empty
    components and the single dots, keeps the double dots, and starts again
    at the root when the text starts with a separator.  (A text with a drive
    or a second root is outside the model, as drives are.) *)

(** [s.split] at every character that [is_sep] holds of. *)
Fixpoint split_where (is_sep : ascii -> bool) (s : string) : list string :=
  match s with
  | EmptyString => [EmptyString]
  | String c r =>
      if is_sep c then EmptyString :: split_where is_sep r
      else match split_where is_sep r with
           | x :: rest => String c x :: rest
           | [] => [String c EmptyString]
           end
  end.

(** The separators of a path given as text: the slash and, on Windows, the
    backslash. *)
Definition is_sep (windows_host : bool) (c : ascii) : bool :=
  Ascii.eqb c "/" || (windows_host && Ascii.eqb c "092").

Definition is_rooted (windows_host : bool) (s : string) : bool :=
  match s with
  | String c _ => is_sep windows_host c
  | EmptyString => false
  end.

Definition components (windows_host : bool) (s : string) : list string :=
  List.filter (fun x => PyStr.truthy x && negb (String.eqb x "."))
    (split_where (is_sep windows_host) s).

(** [parent / name] *)
Definition path_join (H : Host) (parent : Path) (name : string) : Path :=
  let windows_host := is_windows (get_platform H) in
  if is_rooted windows_host name then components windows_host name
  else parent ++ components windows_host name.

(** [p.resolve()], in a tree without links: a double dot takes away the
    component before it, and is dropped at the root. *)
Fixpoint resolve_from (place : Path) (p : Path) : Path :=
  match p with
  | [] => place
  | seg :: p' =>
      if String.eqb seg ".." then resolve_from (List.removelast place) p'
      else resolve_from (place ++ [seg]) p'
  end.

Definition resolve (p : Path) : Path := resolve_from [] p.

(** How a POSIX system follows a path from [place]: every component is
    looked up in the directory reached so far, and a double dot leads from a
    directory to the one that holds it.  The result is the place reached;
    there is none when a component is missing or is looked up in a file. *)
Fixpoint follow (root : Fs.node) (place : Path) (p : Path) : option Path :=
  match p with
  | [] =>
      match Fs.lookup root place with
      | Some _ => Some place
      | None => None
      end
  | seg :: p' =>
      match Fs.lookup root place with
      | Some (Fs.Dir es) =>
          if String.eqb seg ".." then follow root (List.removelast place) p'
          else match Fs.entry seg es with
               | Some _ => follow root (place ++ [seg]) p'
               | None => None
               end
      | _ => None
      end
  end.

(** [p.exists()] for a path that may hold double dots: POSIX follows the
    path; Windows removes the double dots from the text before it looks. *)
Definition exists_unresolved (H : Host) (root : Fs.node) (p : Path) : bool :=
  if is_windows (get_platform H) then Fs.path_exists root (resolve p)
  else match follow root [] p with
       | Some _ => true
       | None => false
       end.

(** [_get_venv_info] on a path that may hold double dots.  The function uses
    its argument in two ways: as it is given, for the name and the text of
    the path in the descriptor; and resolved, by [get_venv_python_path] and
    [get_venv_pip_path], for the interpreter and the package manager it
    looks for and runs. *)
Definition _get_venv_info_unresolved (H : Host) (venv_path : Path) : M VenvInfo :=
  do info <- _get_venv_info H (resolve venv_path);
  ret {| name := path_name venv_path; path := path_str H venv_path;
         python_version := python_version info;
         packages_count := packages_count info;
         is_valid := is_valid info |}.

Definition devenv_venv_create (H : Host) (name : string) (path : option Path)
  (python_executable : option string) (with_pip : bool) : M VenvInfo :=
  let parent_dir :=
    match path with
    | None => get_default_venv_location H
    | Some p => p
    end in
  let target_path := path_join H parent_dir name in
  do root <- read_fs;
  (if negb (Fs.path_exists root parent_dir) then
     ctx_send (Info ("Creating directory: " ++ path_str H parent_dir));;
     mkdir_parents parent_dir
   else ret tt);;
  do root <- read_fs;
  if exists_unresolved H root target_path then
    if _is_valid_venv H root (resolve target_path) then
      ctx_send (Warning ("Venv already exists at " ++ path_str H target_path));;
      _get_venv_info_unresolved H target_path
    else
      ret {| name := name; path := path_str H target_path;
             python_version := "unknown"; packages_count := 0;
             is_valid := false |}
  else
    let python_executable :=
      match python_executable with
      | None => "python"
      | Some p => p
      end in
    do python_check <- run_command H [python_executable; "--version"] 10 false;
    if negb (success python_check) then
      ret {| name := name; path := path_str H target_path;
             python_version :=
               "Error: Python executable '" ++ python_executable ++ "' not found";
             packages_count := 0; is_valid := false |}
    else
      let venv_cmd := [python_executable; "-m"; "venv"] in
      let venv_cmd := if negb with_pip then venv_cmd ++ ["--without-pip"] else venv_cmd in
      let venv_cmd := venv_cmd ++ [path_str H target_path] in
      ctx_send (Info ("Creating venv at " ++ path_str H target_path ++ "..."));;
      do result <- run_command H venv_cmd 120 false;
      if negb (success result) then
        let error_msg :=
          PyStr.or_else (stderr result)
            (PyStr.or_else (stdout result) "Unknown error") in
        ctx_send (Error ("Failed to create venv: " ++ error_msg));;
        ret {| name := name; path := path_str H target_path;
               python_version := "Error: " ++ error_msg;
               packages_count := 0; is_valid := false |}
      else
        ctx_send (Info ("Successfully created venv: " ++ name));;
        _get_venv_info_unresolved H target_path.

(** ** Vocabulary of the properties *)

(** The invariant of a descriptor. *)
Definition descriptor_ok (v : VenvInfo) : Prop :=
  is_valid v = true -> python_version v <> "unknown".

(** The two probes of the Prober, as it issues them. *)
Definition version_probe (H : Host) (venv_path : Path) : M CommandResult :=
  run_command H (version_cmd H venv_path) 10 false.

Definition packages_probe (H : Host) (venv_path : Path) : M CommandResult :=
  run_command H (packages_cmd H venv_path) 30 false.

(** A probe succeeded: it returned, with exit code 0. *)
Definition probe_succeeded (o : outcome CommandResult) : Prop :=
  match o with
  | Ret r => returncode r = 0%Z
  | Raise _ => False
  end.

(** A probe failed: it raised (a timeout, or anything else), or it returned
    with another exit code. *)
Definition probe_failed (o : outcome CommandResult) : Prop :=
  match o with
  | Ret r => returncode r <> 0%Z
  | Raise _ => True
  end.

(** What a probe printed, when it returned. *)
Definition probe_output (o : outcome CommandResult) : string :=
  match o with
  | Ret r => stdout r
  | Raise _ => EmptyString
  end.

(** What the Prober counts in the outcome of the manifest probe: nothing for
    a probe that failed or printed what is no JSON, the length of the
    decoded value for a probe that printed JSON.  No count is given for a
    decoded value without a length. *)
Definition counted (pr : outcome CommandResult) (n : Z) : Prop :=
  (probe_failed pr /\ n = 0%Z)
  \/ (probe_succeeded pr
      /\ Json.loads (probe_output pr) = Json.JSONDecodeError /\ n = 0%Z)
  \/ (probe_succeeded pr
      /\ exists v,
           Json.loads (probe_output pr) = Json.Value v /\ Json.len v = Some n).

(** A directory that the Validator accepts. *)
Definition is_venv_dir (H : Host) (root : Fs.node) (p : Path) : bool :=
  Fs.is_dir root p && _is_valid_venv H root p.

(** The name filter of the Locator. *)
Definition name_matches (H : Host) (pat : string) (p : Path) : bool :=
  Fnmatch.fnmatch (is_windows (get_platform H)) (path_name p) pat.

(** The world after more messages were sent to the client. *)
Definition logged (w : World) (msgs : list ctx_msg) : World :=
  {| fs := fs w; spawn_calls := spawn_calls w; ctx_log := ctx_log w ++ msgs |}.

(** The descriptor of the short-circuit. *)
Definition unusable (H : Host) (venv_path : Path) : VenvInfo :=
  {| name := path_name venv_path; path := path_str H venv_path;
     python_version := "unknown"; packages_count := 0; is_valid := false |}.

(** ** Hosts and file systems of the scenarios *)

Module Scenario.

Definition venv_tree : Fs.node :=
  Fs.Dir [("bin", Fs.Dir [("python", Fs.File); ("pip", Fs.File)])].

(** A registry that holds exactly [proj-a], [proj-b] and [other]. *)
Definition registry : Fs.node :=
  Fs.Dir [("proj-a", venv_tree); ("proj-b", venv_tree); ("other", venv_tree)].

(** A registry with two environments, a file and an empty directory. *)
Definition mixed_registry : Fs.node :=
  Fs.Dir [("first", venv_tree); ("notes.txt", Fs.File); ("empty", Fs.Dir []);
          ("gamma", venv_tree)].

Definition root : Fs.node :=
  Fs.Dir
    [("envs", Fs.Dir [("alpha", venv_tree); ("beta", Fs.Dir [])]);
     ("home", Fs.Dir [("u", Fs.Dir [(".venvs", registry)])]);
     ("srv", Fs.Dir [(".venvs", mixed_registry)]);
     ("work", Fs.Dir [("venv", venv_tree); (".venv", venv_tree)])].

Definition quoted (s : string) : string := PyStr.dquote ++ s ++ PyStr.dquote.

Definition package (n v : string) : string :=
  "{" ++ quoted "name" ++ ": " ++ quoted n ++ ", "
      ++ quoted "version" ++ ": " ++ quoted v ++ "}".

Definition newline : string := String "010" EmptyString.

(** What [pip list --format=json] prints for pip 23.0 and six 1.16. *)
Definition two_packages : string :=
  "[" ++ package "pip" "23.0" ++ ", " ++ package "six" "1.16" ++ "]" ++ newline.

Definition is_version_cmd (cmd : list string) : bool :=
  match cmd with
  | [_; a] => String.eqb a "--version"
  | _ => false
  end.

Definition is_packages_cmd (cmd : list string) : bool :=
  match cmd with
  | [_; a; b] => String.eqb a "list" && String.eqb b "--format=json"
  | _ => false
  end.

(** A Linux host on which every interpreter answers [version] and every
    package manager [packages]; no command changes the file system. *)
Definition host (home : Path) (version packages : proc_event) : Host :=
  {| get_platform := linux;
     get_home_directory := home;
     getcwd := ["work"];
     exec := fun root cmd _ =>
               if is_version_cmd cmd then (version, root)
               else if is_packages_cmd cmd then (packages, root)
               else (NotFound (hd EmptyString cmd), root) |}.

Definition prints (out : string) : proc_event :=
  Exited (Some 0%Z) out EmptyString.

Definition python_3_11_5 : proc_event := prints ("Python 3.11.5" ++ newline).

Definition healthy : Host := host ["home"; "u"] python_3_11_5 (prints two_packages).

(** The package manager prints text that is not JSON. *)
Definition garbled : Host :=
  host ["home"; "u"] python_3_11_5 (prints "not valid json").

(** The interpreter does not answer in time. *)
Definition slow_interpreter : Host :=
  host ["home"; "u"] TimedOut (prints two_packages).

(** The interpreter reports the version text [unknown]. *)
Definition odd_interpreter : Host :=
  host ["home"; "u"] (prints ("Python unknown" ++ newline)) (prints two_packages).

(** The interpreter prints something that is not a version line. *)
Definition chatty_interpreter : Host :=
  host ["home"; "u"] (prints ("CPython 3.11.5" ++ newline)) (prints two_packages).

(** The registry is [/srv/.venvs]; the package manager of [gamma] prints the
    JSON number 5, the others print the two packages. *)
Definition gamma_prints_5 : Host :=
  {| get_platform := linux;
     get_home_directory := ["srv"];
     getcwd := ["work"];
     exec := fun root cmd _ =>
               if is_version_cmd cmd then (python_3_11_5, root)
               else if is_packages_cmd cmd then
                 if String.eqb (hd EmptyString cmd) "/srv/.venvs/gamma/bin/pip"
                 then (prints "5", root)
                 else (prints two_packages, root)
               else (NotFound (hd EmptyString cmd), root) |}.

Definition world (root : Fs.node) : World :=
  {| fs := root; spawn_calls := []; ctx_log := [] |}.

Definition start : World := world root.

(** A home directory without a registry, what [python -m venv] leaves
    there, and the host on which it does. *)
Definition before_create : Fs.node :=
  Fs.Dir [("home", Fs.Dir [("u", Fs.Dir [])])].

Definition after_create : Fs.node :=
  Fs.Dir [("home",
           Fs.Dir [("u", Fs.Dir [(".venvs", Fs.Dir [("fresh", venv_tree)])])])].

Definition creating : Host :=
  {| get_platform := linux;
     get_home_directory := ["home"; "u"];
     getcwd := ["home"; "u"];
     exec := fun root cmd _ =>
               if is_version_cmd cmd then (python_3_11_5, root)
               else if is_packages_cmd cmd then (prints two_packages, root)
               else match cmd with
                    | [_; _; _; _] => (prints EmptyString, after_create)
                    | _ => (NotFound (hd EmptyString cmd), root)
                    end |}.

End Scenario.

(** What a scan may give on [s]: a value and a strictly shorter rest, or a
    decoding error. *)
Definition scan_ok (s : list ascii) (r : Json.res Json.pyval) : Prop :=
  match r with
  | Json.Parsed _ rest => length rest < length s
  | Json.DecodeError => True
  | Json.OutOfFuel => False
  end.

(** Unfolds the Prober on an identifier the Validator accepts, whose probes
    gave [vr] and [pr]. *)
Ltac probe Hvalid Hv Hp :=
  unfold _get_venv_info, bind, read_fs, try_except, gather_return_exceptions,
    ret, raise;
  unfold _is_valid_venv in Hvalid; rewrite Hvalid; cbn [negb];
  unfold version_probe in Hv; unfold packages_probe in Hp;
  rewrite Hv; cbn beta iota; rewrite Hp; cbn beta iota.

(** * The other tools of tools/venv.py, and what they call

    The tools that delete an environment, install into one, list its
    packages and give its activation command, with the helpers of
    [utils/platform.py] they call.  As before, a path that a tool is given
    is taken resolved, as the list of its segments; a name is one path
    segment, or empty.  What the client answers to a request for
    confirmation, and whether a removal fails, are oracles of the model
    ([Removal]); the value of the environment variable SHELL is a
    parameter. *)

(** ** utils/platform.py: shells and activation *)

(** [s.split(sep)] for a one-character separator. *)
Fixpoint split_on (sep : ascii) (s : string) : list string :=
  match s with
  | EmptyString => [EmptyString]
  | String c r =>
      if Ascii.eqb c sep then EmptyString :: split_on sep r
      else match split_on sep r with
           | x :: rest => String c x :: rest
           | [] => [String c EmptyString]
           end
  end.

(** [Path(s).name] of a POSIX path given as text: the last component, when
    empty components and single dots are left out; empty when there is none. *)
Definition posix_path_name (s : string) : string :=
  List.last
    (List.filter (fun x => PyStr.truthy x && negb (String.eqb x ".")) (split_on "/" s))
    EmptyString.

(** [PlatformHelper.get_default_shell]; [environ_SHELL] is the value of the
    environment variable SHELL, when it is set. *)
Definition get_default_shell (H : Host) (environ_SHELL : option string) : string :=
  if is_windows (get_platform H) then "powershell"
  else
    let shell_path := default "/bin/bash" environ_SHELL in
    let shell_name := posix_path_name shell_path in
    if existsb (String.eqb shell_name) ["bash"; "zsh"; "fish"] then shell_name
    else "bash".


(** ** tools/venv.py: the target of a tool *)

(** [parent / name] for a [name] that is a single segment or empty: pathlib
    drops an empty segment. *)
Definition path_div_name (p : Path) (name : string) : Path :=
  if PyStr.truthy name then p // name else p.

(** How the tools other than listing and creating find their target: a path
    that is given (resolved: a list of segments) wins over a name in the
    registry; [None] when neither is given. *)
Definition target_of (H : Host) (given_path : option Path)
  (given_name : option string) : option Path :=
  match given_path with
  | Some p => Some p
  | None =>
      match given_name with
      | Some n => Some (path_div_name (get_default_venv_location H) n)
      | None => None
      end
  end.

(** ** [devenv_venv_activate_info] *)


(** ** [devenv_venv_delete] *)

(** [shutil.rmtree(p)] when nothing is in its way: the entry of [p] is taken
    out of its directory.  (The root itself cannot be taken out: it is left
    empty.) *)
Fixpoint remove_entry (name : string) (es : list (string * Fs.node)) :
  list (string * Fs.node) :=
  match es with
  | [] => []
  | (n, x) :: es' =>
      if String.eqb n name then remove_entry name es'
      else (n, x) :: remove_entry name es'
  end.

Fixpoint rmtree (root : Fs.node) (p : Path) : Fs.node :=
  match p with
  | [] => Fs.Dir []
  | seg :: p' =>
      match root with
      | Fs.File => root
      | Fs.Dir es =>
          match p' with
          | [] => Fs.Dir (remove_entry seg es)
          | _ :: _ =>
              match Fs.entry seg es with
              | Some child => Fs.Dir (Fs.set_entry seg (rmtree child p') es)
              | None => root
              end
          end
      end
  end.

(** How [shutil.rmtree] may fail, with the text of the exception. *)
Inductive rmtree_error : Type :=
| PermissionError (msg : string)
| OtherError (msg : string).

(** What the client answers to [ctx.elicit]: the form accepted, with its
    [confirm] field when there is data, declined, or cancelled. *)
Inductive elicitation : Type :=
| Accepted (data : option bool)
| Declined
| Cancelled.

(** The surroundings of a deletion: the answer of the client to a
    confirmation message (or the exception [ctx.elicit] raises), and whether
    removing a tree fails, and with what left of the file system. *)
Record Removal : Type := {
  elicit : string -> outcome elicitation;
  rmtree_fails : Fs.node -> Path -> option (rmtree_error * Fs.node)
}.

Definition confirmed (answer : elicitation) : bool :=
  match answer with
  | Accepted (Some true) => true
  | _ => false
  end.

Definition set_fs (root : Fs.node) : M unit :=
  fun w => (Ret tt, {| fs := root; spawn_calls := spawn_calls w;
                       ctx_log := ctx_log w |}).

Definition newline : string := String "010" EmptyString.

(** The markers the safety check of a deletion looks for when the
    interpreter is missing. *)
Definition has_venv_markers (root : Fs.node) (target_path : Path) : bool :=
  Fs.path_exists root (target_path // "pyvenv.cfg")
  || Fs.path_exists root (target_path // "Scripts")
  || Fs.path_exists root (target_path // "bin").

Definition devenv_venv_delete (H : Host) (R : Removal) (name : option string)
  (path : option Path) : M string :=
  match target_of H path name with
  | None => ret "Error: Must provide either 'name' or 'path'"
  | Some target_path =>
      do root <- read_fs;
      if negb (Fs.path_exists root target_path) then
        ret ("Error: Venv not found at " ++ path_str H target_path)%string
      else
        if negb (_is_valid_venv H root target_path)
           && negb (has_venv_markers root target_path) then
          ret ("Error: " ++ path_str H target_path
               ++ " does not appear to be a virtual environment")%string
        else
          do venv_info <- _get_venv_info H target_path;
          let confirm_msg :=
            ("Are you sure you want to delete the virtual environment '"
             ++ path_name target_path ++ "'?")%string in
          let confirm_msg :=
            if is_valid venv_info then
              (confirm_msg ++ newline ++ "  Python: " ++ python_version venv_info
               ++ newline ++ "  Packages: " ++ pretty (packages_count venv_info))%string
            else confirm_msg in
          let confirm_msg :=
            (confirm_msg ++ newline ++ newline
             ++ "This will permanently delete the entire directory. This cannot be undone.")%string
            in
          do result <- (fun w => (elicit R confirm_msg, w));
          if negb (confirmed result) then ret "Deletion cancelled"
          else
            ctx_send (Info ("Deleting venv at " ++ path_str H target_path ++ "..."));;
            do root <- read_fs;
            match rmtree_fails R root target_path with
            | None =>
                set_fs (rmtree root target_path);;
                ctx_send (Info ("Successfully deleted venv: " ++ path_name target_path));;
                ret ("Successfully deleted virtual environment: "
                     ++ path_name target_path)%string
            | Some (PermissionError e, remaining) =>
                set_fs remaining;;
                ctx_send (Error ("Permission denied: " ++ e));;
                ret ("Error: Permission denied - could not delete "
                     ++ path_str H target_path)%string
            | Some (OtherError e, remaining) =>
                set_fs remaining;;
                ctx_send (Error ("Failed to delete venv: " ++ e));;
                ret ("Error: Failed to delete venv - " ++ e)%string
            end
  end.

(** ** [devenv_venv_install] *)

Module InstallResult.
Record t : Type := {
  success : bool;
  venv_name : string;
  packages_installed : list string;
  message : string
}.
End InstallResult.

(** The command line of [pip install]. *)
Definition pip_install_cmd (H : Host) (target_path : Path) (upgrade : bool)
  (requirements : option Path) (packages : list string) : list string :=
  let pip_cmd := [path_str H (get_venv_pip_path H target_path); "install"] in
  let pip_cmd := if upgrade then pip_cmd ++ ["--upgrade"] else pip_cmd in
  let pip_cmd :=
    match requirements with
    | Some req_path => pip_cmd ++ ["-r"; path_str H req_path]
    | None => pip_cmd
    end in
  pip_cmd ++ packages.

(** [requirements_file] is the resolved path of the argument; [None] stands
    for an argument that is absent or the empty text (both are false). *)
Definition devenv_venv_install (H : Host) (packages : list string)
  (venv_path : option Path) (venv_name : option string)
  (requirements_file : option Path) (upgrade : bool) : M InstallResult.t :=
  match target_of H venv_path venv_name with
  | None =>
      ret {| InstallResult.success := false;
             InstallResult.venv_name := "unknown";
             InstallResult.packages_installed := [];
             InstallResult.message :=
               "Error: Must provide either 'venv_path' or 'venv_name'" |}
  | Some target_path =>
      do root <- read_fs;
      if negb (_is_valid_venv H root target_path) then
        ret {| InstallResult.success := false;
               InstallResult.venv_name := path_name target_path;
               InstallResult.packages_installed := [];
               InstallResult.message :=
                 "Error: No valid venv found at " ++ path_str H target_path |}
      else
        let missing_requirements :=
          match requirements_file with
          | Some req_path => negb (Fs.path_exists root req_path)
          | None => false
          end in
        if missing_requirements then
          ret {| InstallResult.success := false;
                 InstallResult.venv_name := path_name target_path;
                 InstallResult.packages_installed := [];
                 InstallResult.message :=
                   "Error: Requirements file not found: "
                   ++ match requirements_file with
                      | Some req_path => path_str H req_path
                      | None => EmptyString
                      end |}
        else
          let pip_cmd :=
            pip_install_cmd H target_path upgrade requirements_file packages in
          match packages, requirements_file with
          | [], None =>
              ret {| InstallResult.success := false;
                     InstallResult.venv_name := path_name target_path;
                     InstallResult.packages_installed := [];
                     InstallResult.message :=
                       "Error: No packages or requirements file specified" |}
          | _, _ =>
              ctx_send (Info ("Installing packages into "
                              ++ path_name target_path ++ "..."));;
              do result <- run_command H pip_cmd 300 false;
              if success result then
                ctx_send (Info "Installation completed successfully");;
                ret {| InstallResult.success := true;
                       InstallResult.venv_name := path_name target_path;
                       InstallResult.packages_installed := packages;
                       InstallResult.message :=
                         PyStr.or_else (stdout result)
                           "Packages installed successfully" |}
              else
                ctx_send (Error ("Installation failed: " ++ stderr result));;
                ret {| InstallResult.success := false;
                       InstallResult.venv_name := path_name target_path;
                       InstallResult.packages_installed := [];
                       InstallResult.message :=
                         "Error: " ++ PyStr.or_else (stderr result) (stdout result) |}
          end
  end.

(** ** [devenv_venv_list_packages] *)

Module PackageInfo.
(** The two fields are Python strings decoded from JSON: lists of code
    points. *)
Record t : Type := {
  name : list N;
  version : list N
}.
End PackageInfo.

(** The exceptions that listing the packages may raise: those of [exn], a
    missing key, and a field that is no string (pydantic's
    [ValidationError]; its text is left out). *)
Inductive packages_error : Type :=
| Raised (e : exn)
| KeyError (key : string)
| ValidationError.

Definition codes (s : string) : list N :=
  map N_of_ascii (list_ascii_of_string s).

(** [d[key]] on a decoded JSON object. *)
Fixpoint dict_get (key : list N) (d : list (list N * Json.pyval)) :
  option Json.pyval :=
  match d with
  | [] => None
  | (k, v) :: d' => if decide (k = key) then Some v else dict_get key d'
  end.

(** [PackageInfo(name=pkg["name"], version=pkg["version"])] *)
Definition package_info (pkg : Json.pyval) : packages_error + PackageInfo.t :=
  match pkg with
  | Json.PDict d =>
      match dict_get (codes "name") d with
      | None => inl (KeyError "name")
      | Some n =>
          match dict_get (codes "version") d with
          | None => inl (KeyError "version")
          | Some v =>
              match n, v with
              | Json.PStr n', Json.PStr v' =>
                  inr {| PackageInfo.name := n'; PackageInfo.version := v' |}
              | _, _ => inl ValidationError
              end
          end
      end
  | Json.PStr _ => inl (Raised (TypeError "string indices must be integers, not 'str'"))
  | Json.PList _ =>
      inl (Raised (TypeError "list indices must be integers or slices, not str"))
  | _ =>
      inl (Raised (TypeError ("'" ++ Json.type_name pkg
                              ++ "' object is not subscriptable")))
  end.

(** What [for pkg in packages_data] goes through: the elements of a list, the
    keys of an object, the characters of a string; [None] for a value that
    cannot be iterated. *)
Definition iterate (v : Json.pyval) : option (list Json.pyval) :=
  match v with
  | Json.PList items => Some items
  | Json.PDict pairs => Some (map (fun kv => Json.PStr kv.1) pairs)
  | Json.PStr s => Some (map (fun c => Json.PStr [c]) s)
  | _ => None
  end.

Fixpoint package_infos_of (items : list Json.pyval) :
  packages_error + list PackageInfo.t :=
  match items with
  | [] => inr []
  | pkg :: rest =>
      match package_info pkg with
      | inl e => inl e
      | inr info =>
          match package_infos_of rest with
          | inl e => inl e
          | inr infos => inr (info :: infos)
          end
      end
  end.

(** The list comprehension over the decoded output. *)
Definition package_infos (packages_data : Json.pyval) :
  packages_error + list PackageInfo.t :=
  match iterate packages_data with
  | None =>
      inl (Raised (TypeError ("'" ++ Json.type_name packages_data
                              ++ "' object is not iterable")))
  | Some items => package_infos_of items
  end.

(** A result is the list returned or the exception raised.  The message
    logged when the output is no JSON ends, in the source, with the text of
    the decoder's error, which the model of [json.loads] does not build: the
    model logs the message without it. *)
Definition devenv_venv_list_packages (H : Host) (venv_path : option Path)
  (venv_name : option string) :
  World -> (packages_error + list PackageInfo.t) * World :=
  fun w =>
    match target_of H venv_path venv_name with
    | None =>
        (inr [], logged w [Error "Must provide either 'venv_path' or 'venv_name'"])
    | Some target_path =>
        if negb (_is_valid_venv H (fs w) target_path) then
          (inr [], logged w [Error ("No valid venv found at "
                                   ++ path_str H target_path)])
        else
          match run_command H (packages_cmd H target_path) 30 false w with
          | (Raise e, w1) => (inl (Raised e), w1)
          | (Ret result, w1) =>
              if negb (success result) then
                (inr [], logged w1 [Error ("Failed to list packages: "
                                           ++ stderr result)])
              else
                match Json.loads (stdout result) with
                | Json.JSONDecodeError =>
                    (inr [], logged w1 [Error "Failed to parse pip output: "])
                | Json.Value packages_data =>
                    match package_infos packages_data with
                    | inl e => (inl e, w1)
                    | inr packages =>
                        (inr packages,
                         logged w1 [Info ("Found " ++ pretty (length packages)
                                          ++ " packages in "
                                          ++ path_name target_path)])
                    end
                end
          end
    end.

(** ** Vocabulary and cases of the other tools *)

(** [under p q]: the path [q] is [p] or lies below it. *)
Fixpoint under (p q : Path) : bool :=
  match p, q with
  | [], _ => true
  | _ :: _, [] => false
  | a :: p', b :: q' => String.eqb a b && under p' q'
  end.

(** An element of pip's output describes an entry of the list of packages:
    it is an object whose keys [name] and [version] hold the two texts. *)
Definition describes (pkg : Json.pyval) (info : PackageInfo.t) : Prop :=
  exists d,
    pkg = Json.PDict d
    /\ dict_get (codes "name") d = Some (Json.PStr (PackageInfo.name info))
    /\ dict_get (codes "version") d = Some (Json.PStr (PackageInfo.version info)).

(** A pattern without the characters that [fnmatch] gives a meaning to. *)
Definition special (c : ascii) : bool :=
  Ascii.eqb c "*" || Ascii.eqb c "?" || Ascii.eqb c "[".

Definition plain (pat : string) : bool :=
  forallb (fun c => negb (special c)) (list_ascii_of_string pat).

Module Cases.

(** A client that accepts and confirms, and one that declines; nothing is in
    the way of a removal. *)
Definition confirming : Removal :=
  {| elicit := fun _ => Ret (Accepted (Some true));
     rmtree_fails := fun _ _ => None |}.


Definition is_install_cmd (cmd : list string) : bool :=
  match cmd with
  | _ :: a :: _ => String.eqb a "install"
  | _ => false
  end.

(** The healthy host, on which [pip install] ends as [pip] says. *)
Definition installing (pip : proc_event) : Host :=
  {| get_platform := linux;
     get_home_directory := ["home"; "u"];
     getcwd := ["work"];
     exec := fun root cmd timeout =>
               if is_install_cmd cmd then (pip, root)
               else exec Scenario.healthy root cmd timeout |}.

(** pip prints an array whose second object has no [version]. *)
Definition truncated_listing : string :=
  "[" ++ Scenario.package "pip" "23.0" ++ ", {"
      ++ Scenario.quoted "name" ++ ": " ++ Scenario.quoted "six" ++ "}]".

Definition truncating : Host :=
  Scenario.host ["home"; "u"] Scenario.python_3_11_5
    (Scenario.prints truncated_listing).

End Cases.

(** * Properties *)

(** ** Python strings *)

Lemma lstrip_no_leading_space (s : string) :
  match PyStr.lstrip s with
  | EmptyString => True
  | String c _ => PyStr.isspace c = false
  end.
Proof.
  induction s as [|c r IH]; simpl; [exact I|].
  destruct (PyStr.isspace c) eqn:E; [exact IH | exact E].
Qed.

Lemma rstrip_idempotent (s : string) :
  PyStr.rstrip (PyStr.rstrip s) = PyStr.rstrip s.
Proof.
  induction s as [|c r IH]; simpl; [reflexivity|].
  destruct (PyStr.rstrip r) as [|a r'] eqn:E.
  - destruct (PyStr.isspace c) eqn:Ec; simpl; [reflexivity | rewrite Ec; reflexivity].
  - change (PyStr.rstrip (String c (String a r'))) with
      (match PyStr.rstrip (String a r') with
       | EmptyString =>
           if PyStr.isspace c then EmptyString else String c EmptyString
       | x => String c x
       end).
    now rewrite IH.
Qed.

Lemma lstrip_rstrip_fixed (s : string) :
  match s with EmptyString => True | String c _ => PyStr.isspace c = false end ->
  PyStr.lstrip (PyStr.rstrip s) = PyStr.rstrip s.
Proof.
  destruct s as [|c r]; simpl; [reflexivity|]. intros Hc.
  destruct (PyStr.rstrip r); rewrite ?Hc; simpl; rewrite Hc; reflexivity.
Qed.

Lemma strip_idempotent (s : string) :
  PyStr.strip (PyStr.strip s) = PyStr.strip s.
Proof.
  unfold PyStr.strip.
  rewrite lstrip_rstrip_fixed by apply lstrip_no_leading_space.
  apply rstrip_idempotent.
Qed.

Lemma python_prefix (v : string) :
  PyStr.startswith "Python " ("Python " ++ v) = true.
Proof. reflexivity. Qed.

Lemma python_prefix_removed (v : string) :
  PyStr.slice_from 7 ("Python " ++ v) = v.
Proof. reflexivity. Qed.

(** ** [run_command] *)

Lemma run_command_output_trimmed (H : Host) cmd timeout check w r w' :
  run_command H cmd timeout check w = (Ret r, w') ->
  PyStr.strip (stdout r) = stdout r.
Proof.
  unfold run_command. destruct (exec H (fs w) cmd timeout) as [ev fs'].
  destruct ev as [code out err| |filename|e]; try discriminate.
  - destruct (check && _); [discriminate|].
    intros [= <- _]. simpl. apply strip_idempotent.
  - intros [= <- _]. reflexivity.
Qed.

Lemma run_command_effects (H : Host) cmd timeout check w o w' :
  run_command H cmd timeout check w = (o, w') ->
  spawn_calls w' = spawn_calls w ++ [cmd] /\ ctx_log w' = ctx_log w.
Proof.
  unfold run_command. destruct (exec H (fs w) cmd timeout) as [ev fs'].
  destruct ev as [code out err| |filename|e]; try destruct (check && _);
    intros [= _ <-]; simpl; auto.
Qed.

(** A timeout is raised to the caller of [run_command]; a program that is
    not found is reported as exit code 127. *)
Lemma run_command_timed_out (H : Host) cmd timeout check w root' :
  exec H (fs w) cmd timeout = (TimedOut, root') ->
  fst (run_command H cmd timeout check w) = Raise TimeoutError.
Proof. unfold run_command. now intros ->. Qed.

Lemma run_command_not_found (H : Host) cmd timeout check w root' filename :
  exec H (fs w) cmd timeout = (NotFound filename, root') ->
  exists r, fst (run_command H cmd timeout check w) = Ret r /\ returncode r = 127%Z.
Proof. unfold run_command. intros ->. simpl. eauto. Qed.

Lemma success_true (r : CommandResult) : returncode r = 0%Z -> success r = true.
Proof. unfold success. now intros ->. Qed.

Lemma success_false (r : CommandResult) : returncode r <> 0%Z -> success r = false.
Proof. unfold success. intros Hne. now destruct (Z.eqb_spec (returncode r) 0). Qed.

Lemma success_returncode (r : CommandResult) : success r = true -> returncode r = 0%Z.
Proof. unfold success. now destruct (Z.eqb_spec (returncode r) 0). Qed.

(** ** The Prober *)

(** The short-circuit of the Prober. *)
Lemma prober_short_circuit (H : Host) (venv_path : Path) (w : World) :
  _is_valid_venv H (fs w) venv_path = false ->
  _get_venv_info H venv_path w = (Ret (unusable H venv_path), w).
Proof.
  unfold _is_valid_venv. intros Hrej.
  unfold _get_venv_info, bind, read_fs. now rewrite Hrej.
Qed.

(** C2.  An identifier the Validator rejects is not probed: the Prober
    returns the descriptor with version "unknown", no packages and
    [is_valid = false], and leaves the world as it was, so that no subprocess
    is started. *)
Theorem rejected_identifier_is_not_probed (H : Host) (venv_path : Path) (w : World) :
  _is_valid_venv H (fs w) venv_path = false ->
  _get_venv_info H venv_path w =
    (Ret {| name := path_name venv_path; path := path_str H venv_path;
            python_version := "unknown"; packages_count := 0;
            is_valid := false |}, w)
  /\ spawn_calls (snd (_get_venv_info H venv_path w)) = spawn_calls w.
Proof.
  intros Hrej. rewrite (prober_short_circuit H venv_path w Hrej).
  split; reflexivity.
Qed.

Lemma rejected_identifier_is_not_probed_witness :
  _get_venv_info Scenario.healthy ["envs"; "beta"] Scenario.start =
    (Ret {| name := "beta"; path := "/envs/beta"; python_version := "unknown";
            packages_count := 0; is_valid := false |}, Scenario.start)
  /\ spawn_calls (snd (_get_venv_info Scenario.healthy ["envs"; "beta"]
                         Scenario.start)) = [].
Proof.
  apply (rejected_identifier_is_not_probed Scenario.healthy ["envs"; "beta"]
           Scenario.start).
  reflexivity.
Defined.

(** C3, as stated, fails when the interpreter prints "Python unknown": the
    output has the form "Python " followed by a string, the manifest is an
    array of two entries, and the descriptor is not usable. *)
Lemma sentinel_version_counterexample :
  let H := Scenario.odd_interpreter in
  let venv_path := ["envs"; "alpha"] in
  let w := Scenario.start in
  _is_valid_venv H (fs w) venv_path = true
  /\ (exists vr w1 pr w2 items,
        version_probe H venv_path w = (vr, w1)
        /\ probe_succeeded vr
        /\ probe_output vr = ("Python " ++ "unknown")%string
        /\ packages_probe H venv_path w1 = (pr, w2)
        /\ probe_succeeded pr
        /\ Json.loads (probe_output pr) = Json.Value (Json.PList items)
        /\ length items = 2)
  /\ exists d w2,
       _get_venv_info H venv_path w = (Ret d, w2) /\ is_valid d = false.
Proof.
  cbv zeta. split; [reflexivity|]. split.
  - do 5 eexists. repeat split; reflexivity.
  - do 2 eexists. split; vm_compute; reflexivity.
Qed.

(** What the Prober returns for a validated identifier whose manifest probe
    gives a count: the version and the validity come from the version probe
    alone. *)
Lemma prober_with_count (H : Host) (venv_path : Path) (w w1 w2 : World)
  (rv : CommandResult) (pr : outcome CommandResult) (n : Z) :
  _is_valid_venv H (fs w) venv_path = true ->
  version_probe H venv_path w = (Ret rv, w1) ->
  returncode rv = 0%Z ->
  packages_probe H venv_path w1 = (pr, w2) ->
  counted pr n ->
  _get_venv_info H venv_path w =
    (Ret {| name := path_name venv_path; path := path_str H venv_path;
            python_version :=
              if PyStr.startswith "Python " (stdout rv)
              then PyStr.slice_from 7 (stdout rv) else "unknown";
            packages_count := n;
            is_valid :=
              negb (String.eqb
                      (if PyStr.startswith "Python " (stdout rv)
                       then PyStr.slice_from 7 (stdout rv) else "unknown")
                      "unknown") |}, w2).
Proof.
  intros Hvalid Hv Hvok Hp Hn.
  pose proof (run_command_output_trimmed _ _ _ _ _ _ _ Hv) as Htrim.
  probe Hvalid Hv Hp. rewrite (success_true rv Hvok), Htrim. cbn [andb].
  destruct Hn as [[Hf ->]|[(Hs & Hj & ->)|(Hs & v & Hj & Hl)]].
  - destruct pr as [rp|e]; [|reflexivity].
    cbn [probe_failed] in Hf. now rewrite (success_false rp Hf).
  - destruct pr as [rp|e]; [|contradiction].
    cbn [probe_succeeded probe_output] in *.
    now rewrite (success_true rp Hs), Hj.
  - destruct pr as [rp|e]; [|contradiction].
    cbn [probe_succeeded probe_output] in *.
    now rewrite (success_true rp Hs), Hj, Hl.
Qed.

(** The version of a descriptor is the sentinel whenever the version probe
    printed nothing that starts with "Python ", whether it succeeded, failed
    or raised. *)
Lemma prober_other_format (H : Host) (venv_path : Path) (w w1 w2 : World)
  (vr pr : outcome CommandResult) :
  _is_valid_venv H (fs w) venv_path = true ->
  version_probe H venv_path w = (vr, w1) ->
  packages_probe H venv_path w1 = (pr, w2) ->
  PyStr.startswith "Python " (probe_output vr) = false ->
  (forall n,
     counted pr n ->
     _get_venv_info H venv_path w =
       (Ret {| name := path_name venv_path; path := path_str H venv_path;
               python_version := "unknown";
               packages_count := n;
               is_valid := false |}, w2))
  /\ (forall d w',
        _get_venv_info H venv_path w = (Ret d, w') ->
        python_version d = "unknown" /\ is_valid d = false).
Proof.
  intros Hvalid Hv Hp Hno.
  assert (Hver :
    match vr with
    | Ret r =>
        if success r
        then if PyStr.startswith "Python " (PyStr.strip (stdout r))
             then PyStr.slice_from 7 (PyStr.strip (stdout r)) else "unknown"
        else "unknown"
    | Raise _ => "unknown"
    end = "unknown").
  { destruct vr as [rv|ev]; [|reflexivity].
    pose proof (run_command_output_trimmed _ _ _ _ _ _ _ Hv) as Htrim.
    cbn [probe_output] in Hno. rewrite Htrim, Hno. now destruct (success rv). }
  assert (Hval :
    match vr with
    | Ret r => success r && negb (String.eqb "unknown" "unknown")
    | Raise _ => false
    end = false)
    by (destruct vr; [apply andb_false_r|reflexivity]).
  probe Hvalid Hv Hp. rewrite Hver, Hval. clear Hver Hval. split.
  - intros n [[Hf ->]|[(Hs & Hj & ->)|(Hs & v & Hj & Hl)]].
    + destruct pr as [rp|e]; [|reflexivity].
      cbn [probe_failed] in Hf. now rewrite (success_false rp Hf).
    + destruct pr as [rp|e]; [|contradiction].
      cbn [probe_succeeded probe_output] in *.
      now rewrite (success_true rp Hs), Hj.
    + destruct pr as [rp|e]; [|contradiction].
      cbn [probe_succeeded probe_output] in *.
      now rewrite (success_true rp Hs), Hj, Hl.
  - intros d w'.
    destruct pr as [rp|e]; [destruct (success rp);
      [destruct (Json.loads (stdout rp)) as [packages|];
       [destruct (Json.len packages); [|discriminate]|]|]|];
      intros [= <- _]; split; reflexivity.
Qed.

(** C3 (amended).  When the version probe of a validated identifier succeeds
    and prints "Python " followed by [v], a version text other than the
    sentinel "unknown", and the manifest probe succeeds and prints a JSON
    array of N entries, the descriptor carries the final path segment, [v],
    N and [is_valid = true].  When the version probe prints anything that
    does not start with "Python ", the version of the descriptor is
    "unknown" and [is_valid] is false, whatever else the two probes give:
    the descriptor is returned with the count of the manifest probe whenever
    there is one, and no descriptor that is returned says otherwise. *)
Theorem happy_path (H : Host) (venv_path : Path) (w w1 w2 : World)
  (vr pr : outcome CommandResult) :
  _is_valid_venv H (fs w) venv_path = true ->
  version_probe H venv_path w = (vr, w1) ->
  packages_probe H venv_path w1 = (pr, w2) ->
  (forall items v,
     probe_succeeded vr ->
     probe_output vr = ("Python " ++ v)%string -> v <> "unknown" ->
     probe_succeeded pr ->
     Json.loads (probe_output pr) = Json.Value (Json.PList items) ->
     _get_venv_info H venv_path w =
       (Ret {| name := path_name venv_path; path := path_str H venv_path;
               python_version := v;
               packages_count := Z.of_nat (length items);
               is_valid := true |}, w2))
  /\ (PyStr.startswith "Python " (probe_output vr) = false ->
      (forall n,
         counted pr n ->
         _get_venv_info H venv_path w =
           (Ret {| name := path_name venv_path; path := path_str H venv_path;
                   python_version := "unknown";
                   packages_count := n;
                   is_valid := false |}, w2))
      /\ (forall d w',
            _get_venv_info H venv_path w = (Ret d, w') ->
            python_version d = "unknown" /\ is_valid d = false)).
Proof.
  intros Hvalid Hv Hp. split.
  - intros items v Hvok Hout Hv' Hpok Hjson.
    destruct vr as [rv|]; [|contradiction].
    cbn [probe_succeeded probe_output] in *.
    rewrite (prober_with_count H venv_path w w1 w2 rv pr
               (Z.of_nat (length items)) Hvalid Hv Hvok Hp).
    + rewrite Hout, python_prefix, python_prefix_removed.
      destruct (String.eqb_spec v "unknown"); [contradiction|reflexivity].
    + right. right. split; [exact Hpok|]. now exists (Json.PList items).
  - intros Hno. exact (prober_other_format H venv_path w w1 w2 vr pr Hvalid Hv Hp Hno).
Qed.

Lemma happy_path_witness :
  exists w2,
    _get_venv_info Scenario.healthy ["envs"; "alpha"] Scenario.start =
      (Ret {| name := "alpha"; path := "/envs/alpha";
              python_version := "3.11.5"; packages_count := 2;
              is_valid := true |}, w2).
Proof.
  pose (H := Scenario.healthy). pose (p := ["envs"; "alpha"]).
  pose (w := Scenario.start).
  pose (vr := fst (version_probe H p w)). pose (w1 := snd (version_probe H p w)).
  pose (pr := fst (packages_probe H p w1)).
  pose (w2 := snd (packages_probe H p w1)).
  assert (exists items,
             Json.loads (probe_output pr) = Json.Value (Json.PList items)
             /\ Z.of_nat (length items) = 2%Z) as (items & Hj & Hl).
  { vm_compute. eexists. split; reflexivity. }
  exists w2.
  destruct (happy_path H p w w1 w2 vr pr) as [T _].
  - reflexivity.
  - apply surjective_pairing.
  - apply surjective_pairing.
  - pose proof (T items "3.11.5" eq_refl eq_refl ltac:(discriminate) eq_refl Hj)
      as T'.
    rewrite Hl in T'. exact T'.
Defined.

(** The scenario of the specification: [/envs/alpha], "Python 3.11.5" and a
    manifest of two entries. *)
Example happy_path_alpha :
  fst (_get_venv_info Scenario.healthy ["envs"; "alpha"] Scenario.start) =
    Ret {| name := "alpha"; path := "/envs/alpha"; python_version := "3.11.5";
           packages_count := 2; is_valid := true |}.
Proof. reflexivity. Qed.

(** The version text is read only after the prefix "Python ": another first
    line gives the sentinel. *)
Example other_version_format :
  fst (_get_venv_info Scenario.chatty_interpreter ["envs"; "alpha"] Scenario.start) =
    Ret {| name := "alpha"; path := "/envs/alpha"; python_version := "unknown";
           packages_count := 2; is_valid := false |}.
Proof. reflexivity. Qed.

(** The [is_valid] field of a descriptor the Prober returns for a validated
    identifier. *)
Lemma usable_field (H : Host) (venv_path : Path) (w w1 w2 w' : World)
  (vr pr : outcome CommandResult) (d : VenvInfo) :
  _is_valid_venv H (fs w) venv_path = true ->
  version_probe H venv_path w = (vr, w1) ->
  packages_probe H venv_path w1 = (pr, w2) ->
  _get_venv_info H venv_path w = (Ret d, w') ->
  (is_valid d = true <-> probe_succeeded vr /\ python_version d <> "unknown").
Proof.
  intros Hvalid Hv Hp. probe Hvalid Hv Hp.
  destruct pr as [rp|ep]; [destruct (success rp);
    [destruct (Json.loads (stdout rp)) as [packages|];
     [destruct (Json.len packages); [|discriminate]|]|]|];
    intros [= <- _]; cbn [is_valid python_version];
    (destruct vr as [rv|ev]; cbn [probe_succeeded];
     [unfold success; destruct (Z.eqb_spec (returncode rv) 0);
      cbn [andb];
      [match goal with
       | |- negb (?s =? _)%string = true <-> _ =>
           destruct (String.eqb_spec s "unknown"); cbn [negb]; intuition congruence
       end
      | intuition congruence]
     | intuition congruence]).
Qed.

(** Every descriptor the Prober returns satisfies the invariant. *)
Lemma prober_descriptor_ok (H : Host) (venv_path : Path) (w w' : World)
  (d : VenvInfo) :
  _get_venv_info H venv_path w = (Ret d, w') -> descriptor_ok d.
Proof.
  intros E. destruct (_is_valid_venv H (fs w) venv_path) eqn:Hvalid.
  - destruct (version_probe H venv_path w) as [vr w1] eqn:Hv.
    destruct (packages_probe H venv_path w1) as [pr w2] eqn:Hp.
    intros Hd. now apply (usable_field H venv_path w w1 w2 w' vr pr d) in Hd.
  - rewrite (prober_short_circuit H venv_path w Hvalid) in E.
    injection E as <- _. unfold descriptor_ok. discriminate.
Qed.

(** What holds of the validity of a descriptor: for a validated identifier,
    [is_valid] is true exactly when the version probe returned with exit
    code 0 and the version read from it is not "unknown"; the manifest probe
    has no part in it.  With a working interpreter and a manifest probe that
    failed or printed text that is not JSON, the descriptor has
    [is_valid = true] and [packages_count = 0]. *)
Theorem usable_iff_version_probe (H : Host) (venv_path : Path) (w w1 w2 : World)
  (vr pr : outcome CommandResult) :
  _is_valid_venv H (fs w) venv_path = true ->
  version_probe H venv_path w = (vr, w1) ->
  packages_probe H venv_path w1 = (pr, w2) ->
  (forall d w',
     _get_venv_info H venv_path w = (Ret d, w') ->
     (is_valid d = true <-> probe_succeeded vr /\ python_version d <> "unknown"))
  /\ (forall v,
        probe_succeeded vr ->
        probe_output vr = ("Python " ++ v)%string ->
        v <> "unknown" ->
        probe_failed pr \/ Json.loads (probe_output pr) = Json.JSONDecodeError ->
        _get_venv_info H venv_path w =
          (Ret {| name := path_name venv_path; path := path_str H venv_path;
                  python_version := v; packages_count := 0;
                  is_valid := true |}, w2)).
Proof.
  intros Hvalid Hv Hp.
  split.
  - intros d w' E. exact (usable_field H venv_path w w1 w2 w' vr pr d Hvalid Hv Hp E).
  - intros v Hvok Hout Hv' Hbad.
    pose proof Hv as Htrim. unfold version_probe in Htrim.
    probe Hvalid Hv Hp.
    destruct vr as [rv|ev]; [|contradiction]. cbn [probe_succeeded probe_output] in *.
    apply run_command_output_trimmed in Htrim.
    rewrite (success_true rv Hvok), Htrim, Hout, python_prefix, python_prefix_removed.
    cbn [andb].
    destruct (String.eqb_spec v "unknown"); [contradiction|]. cbn [negb].
    destruct pr as [rp|ep]; [|reflexivity].
    destruct (success rp) eqn:E; [|reflexivity].
    destruct Hbad as [Hbad|Hbad].
    + cbn [probe_failed] in Hbad. apply success_returncode in E. contradiction.
    + cbn [probe_output] in Hbad. rewrite Hbad. reflexivity.
Qed.

Lemma usable_iff_version_probe_witness :
  exists w2,
    _get_venv_info Scenario.garbled ["envs"; "alpha"] Scenario.start =
      (Ret {| name := "alpha"; path := "/envs/alpha";
              python_version := "3.11.5"; packages_count := 0;
              is_valid := true |}, w2).
Proof.
  pose (H := Scenario.garbled). pose (p := ["envs"; "alpha"]).
  pose (w := Scenario.start).
  pose (vr := fst (version_probe H p w)). pose (w1 := snd (version_probe H p w)).
  pose (pr := fst (packages_probe H p w1)).
  pose (w2 := snd (packages_probe H p w1)).
  exists w2.
  destruct (usable_iff_version_probe H p w w1 w2 vr pr) as [_ T].
  - reflexivity.
  - apply surjective_pairing.
  - apply surjective_pairing.
  - apply (T "3.11.5").
    + reflexivity.
    + reflexivity.
    + discriminate.
    + right. vm_compute. reflexivity.
Defined.

(** C4.  Malformed output of the manifest probe does not always leave the
    count at 0.  For a validated identifier whose interpreter works, when the
    package manager succeeds and prints valid JSON, the Prober takes the
    length of whatever was decoded: the descriptor has [is_valid = true] and
    the number of keys of an object or of characters of a text as its count,
    and for a decoded value without a length no descriptor is returned, the
    [TypeError] of [len] is raised. *)
Theorem manifest_of_another_shape_is_counted (H : Host) (venv_path : Path)
  (w w1 w2 : World) (vr pr : outcome CommandResult) (ver : string)
  (v : Json.pyval) :
  _is_valid_venv H (fs w) venv_path = true ->
  version_probe H venv_path w = (vr, w1) ->
  probe_succeeded vr ->
  probe_output vr = ("Python " ++ ver)%string ->
  ver <> "unknown" ->
  packages_probe H venv_path w1 = (pr, w2) ->
  probe_succeeded pr ->
  Json.loads (probe_output pr) = Json.Value v ->
  _get_venv_info H venv_path w =
    match Json.len v with
    | Some n =>
        (Ret {| name := path_name venv_path; path := path_str H venv_path;
                python_version := ver; packages_count := n;
                is_valid := true |}, w2)
    | None =>
        (Raise (TypeError ("object of type '" ++ Json.type_name v
                           ++ "' has no len()")), w2)
    end.
Proof.
  intros Hvalid Hv Hvok Hout Hver Hp Hpok Hj.
  destruct vr as [rv|]; [|contradiction]. destruct pr as [rp|]; [|contradiction].
  cbn [probe_succeeded probe_output] in *.
  destruct (Json.len v) as [n|] eqn:Hl.
  - rewrite (prober_with_count H venv_path w w1 w2 rv (Ret rp) n Hvalid Hv Hvok Hp).
    + rewrite Hout, python_prefix, python_prefix_removed.
      destruct (String.eqb_spec ver "unknown"); [contradiction|reflexivity].
    + right. right. split; [exact Hpok|]. now exists v.
  - probe Hvalid Hv Hp. now rewrite (success_true rp Hpok), Hj, Hl.
Qed.

Lemma manifest_of_another_shape_is_counted_witness :
  let pip := Scenario.prints ("{" ++ Scenario.quoted "a" ++ ": 1}") in
  exists w2,
    _get_venv_info (Scenario.host ["home"; "u"] Scenario.python_3_11_5 pip)
      ["envs"; "alpha"] Scenario.start =
      (Ret {| name := "alpha"; path := "/envs/alpha";
              python_version := "3.11.5"; packages_count := 1;
              is_valid := true |}, w2).
Proof.
  cbv zeta.
  pose (H := Scenario.host ["home"; "u"] Scenario.python_3_11_5
               (Scenario.prints ("{" ++ Scenario.quoted "a" ++ ": 1}"))).
  pose (p := ["envs"; "alpha"]). pose (w := Scenario.start).
  pose (vr := fst (version_probe H p w)). pose (w1 := snd (version_probe H p w)).
  pose (pr := fst (packages_probe H p w1)).
  pose (w2 := snd (packages_probe H p w1)).
  pose (v := match Json.loads (probe_output pr) with
             | Json.Value x => x
             | Json.JSONDecodeError => Json.PNone
             end).
  assert (Hj : Json.loads (probe_output pr) = Json.Value v)
    by (vm_compute; reflexivity).
  assert (Hl : Json.len v = Some 1%Z) by (vm_compute; reflexivity).
  exists w2.
  pose proof (manifest_of_another_shape_is_counted H p w w1 w2 vr pr "3.11.5" v
                eq_refl (surjective_pairing _) eq_refl eq_refl
                ltac:(discriminate) (surjective_pairing _) eq_refl Hj) as T.
  rewrite Hl in T. exact T.
Defined.

(** C9.  When the version probe of a validated identifier fails (it timed
    out, raised, or returned another exit code) and the manifest probe
    succeeds with a JSON array of N entries, the descriptor has the version
    "unknown", [is_valid = false] and [packages_count = N]; both probes were
    issued. *)
Theorem version_failure_keeps_count (H : Host) (venv_path : Path)
  (w w1 w2 : World) (vr pr : outcome CommandResult) (items : list Json.pyval) :
  _is_valid_venv H (fs w) venv_path = true ->
  version_probe H venv_path w = (vr, w1) ->
  probe_failed vr ->
  packages_probe H venv_path w1 = (pr, w2) ->
  probe_succeeded pr ->
  Json.loads (probe_output pr) = Json.Value (Json.PList items) ->
  _get_venv_info H venv_path w =
    (Ret {| name := path_name venv_path; path := path_str H venv_path;
            python_version := "unknown";
            packages_count := Z.of_nat (length items);
            is_valid := false |}, w2)
  /\ spawn_calls w2 =
       spawn_calls w ++ [version_cmd H venv_path; packages_cmd H venv_path].
Proof.
  intros Hvalid Hv Hvbad Hp Hpok Hjson. split.
  - destruct pr as [rp|]; [|contradiction].
    cbn [probe_succeeded probe_output] in *.
    probe Hvalid Hv Hp. rewrite (success_true rp Hpok), Hjson.
    cbn [Json.len].
    destruct vr as [rv|ev]; [|reflexivity]. cbn [probe_failed] in Hvbad.
    rewrite (success_false rv Hvbad). reflexivity.
  - apply run_command_effects in Hv as [Hv _].
    apply run_command_effects in Hp as [Hp _].
    rewrite Hp, Hv, <- app_assoc. reflexivity.
Qed.

Lemma version_failure_keeps_count_witness :
  exists w2,
    _get_venv_info Scenario.slow_interpreter ["envs"; "alpha"] Scenario.start =
      (Ret {| name := "alpha"; path := "/envs/alpha";
              python_version := "unknown"; packages_count := 2;
              is_valid := false |}, w2)
    /\ spawn_calls w2 =
         [["/envs/alpha/bin/python"; "--version"];
          ["/envs/alpha/bin/pip"; "list"; "--format=json"]].
Proof.
  pose (H := Scenario.slow_interpreter). pose (p := ["envs"; "alpha"]).
  pose (w := Scenario.start).
  pose (vr := fst (version_probe H p w)). pose (w1 := snd (version_probe H p w)).
  pose (pr := fst (packages_probe H p w1)).
  pose (w2 := snd (packages_probe H p w1)).
  assert (exists items,
             Json.loads (probe_output pr) = Json.Value (Json.PList items)
             /\ Z.of_nat (length items) = 2%Z) as (items & Hj & Hl).
  { vm_compute. eexists. split; reflexivity. }
  exists w2.
  pose proof (version_failure_keeps_count H p w w1 w2 vr pr items
                eq_refl (surjective_pairing _) I (surjective_pairing _)
                eq_refl Hj) as T.
  rewrite Hl in T. exact T.
Defined.

(** The version probe of [Scenario.slow_interpreter] is a timeout, which
    [run_command] raises. *)
Example slow_interpreter_times_out :
  fst (version_probe Scenario.slow_interpreter ["envs"; "alpha"] Scenario.start)
  = Raise TimeoutError.
Proof. reflexivity. Qed.

(** C1, on the code.  The manifest probe of [/srv/.venvs/gamma] exits with
    code 0 and prints the JSON number 5: [json.loads] returns an [int],
    [len] raises [TypeError], which is no [JSONDecodeError], and the
    exception leaves the Prober. *)
Theorem prober_raises_on_json_number :
  _is_valid_venv Scenario.gamma_prints_5 Scenario.root ["srv"; ".venvs"; "gamma"]
  = true
  /\ fst (_get_venv_info Scenario.gamma_prints_5 ["srv"; ".venvs"; "gamma"]
            Scenario.start)
     = Raise (TypeError "object of type 'int' has no len()").
Proof. split; reflexivity. Qed.

(** The same in general: a successful manifest probe whose output is JSON
    without a length makes the Prober raise. *)
Lemma prober_raises_on_unsized_json (H : Host) (venv_path : Path)
  (w w1 w2 : World) (vr pr : outcome CommandResult) (v : Json.pyval) :
  _is_valid_venv H (fs w) venv_path = true ->
  version_probe H venv_path w = (vr, w1) ->
  packages_probe H venv_path w1 = (pr, w2) ->
  probe_succeeded pr ->
  Json.loads (probe_output pr) = Json.Value v ->
  Json.len v = None ->
  exists e, _get_venv_info H venv_path w = (Raise e, w2).
Proof.
  intros Hvalid Hv Hp Hpok Hjson Hlen.
  destruct pr as [rp|]; [|contradiction].
  cbn [probe_succeeded probe_output] in *.
  probe Hvalid Hv Hp. rewrite (success_true rp Hpok), Hjson, Hlen. eauto.
Qed.

(** A JSON object is counted by its keys, a JSON string by its characters. *)
Example prober_counts_object_keys :
  let pip := Scenario.prints ("{" ++ Scenario.quoted "a" ++ ": 1}") in
  fst (_get_venv_info (Scenario.host ["home"; "u"] Scenario.python_3_11_5 pip)
         ["envs"; "alpha"] Scenario.start)
  = Ret {| name := "alpha"; path := "/envs/alpha"; python_version := "3.11.5";
           packages_count := 1; is_valid := true |}.
Proof. reflexivity. Qed.

(** What does hold of the Prober: it returns a descriptor whenever the
    manifest probe failed, printed text that is not JSON, or printed JSON with
    a length (an array, an object, a string). *)
Lemma prober_returns_on_sized_json (H : Host) (venv_path : Path) (w : World) :
  (forall w1 rp v,
     fst (packages_probe H venv_path w1) = Ret rp ->
     returncode rp = 0%Z ->
     Json.loads (stdout rp) = Json.Value v ->
     Json.len v <> None) ->
  exists d w', _get_venv_info H venv_path w = (Ret d, w').
Proof.
  intros Hsized.
  destruct (_is_valid_venv H (fs w) venv_path) eqn:Hvalid.
  2:{ rewrite (prober_short_circuit H venv_path w Hvalid). eauto. }
  destruct (version_probe H venv_path w) as [vr w1] eqn:Hv.
  destruct (packages_probe H venv_path w1) as [pr w2] eqn:Hp.
  specialize (Hsized w1). rewrite Hp in Hsized. cbn [fst] in Hsized.
  probe Hvalid Hv Hp.
  destruct pr as [rp|]; [|eauto].
  destruct (success rp) eqn:E; [|eauto].
  destruct (Json.loads (stdout rp)) as [v|] eqn:Hj; [|eauto].
  destruct (Json.len v) eqn:Hl; [eauto|].
  exfalso. exact (Hsized rp v eq_refl (success_returncode rp E) Hj Hl).
Qed.

(** ** The file system *)

Lemma lookup_app (root : Fs.node) (p q : Path) :
  Fs.lookup root (p ++ q) =
    match Fs.lookup root p with
    | Some n => Fs.lookup n q
    | None => None
    end.
Proof.
  revert root. induction p as [|seg p IH]; intros root; simpl; [reflexivity|].
  destruct root as [|es]; [reflexivity|].
  destruct (Fs.entry seg es); [apply IH | reflexivity].
Qed.

Lemma missing_parent (root : Fs.node) (p : Path) (seg : string) :
  Fs.path_exists root p = false -> Fs.path_exists root (p // seg) = false.
Proof.
  unfold Fs.path_exists, path_div. rewrite lookup_app.
  now destruct (Fs.lookup root p).
Qed.

Lemma is_dir_exists (root : Fs.node) (p : Path) :
  Fs.is_dir root p = true -> Fs.path_exists root p = true.
Proof. unfold Fs.is_dir, Fs.path_exists. now destruct (Fs.lookup root p). Qed.

Lemma exists_and_is_dir (root : Fs.node) (p : Path) :
  Fs.path_exists root p && Fs.is_dir root p = Fs.is_dir root p.
Proof.
  destruct (Fs.is_dir root p) eqn:E; [|apply andb_false_r].
  now rewrite (is_dir_exists _ _ E).
Qed.

Lemma iterdir_missing (root : Fs.node) (p : Path) :
  Fs.path_exists root p = false -> Fs.iterdir root p = [].
Proof. unfold Fs.path_exists, Fs.iterdir. now destruct (Fs.lookup root p). Qed.

Lemma iterdir_not_dir (root : Fs.node) (p : Path) :
  Fs.is_dir root p = false -> Fs.iterdir root p = [].
Proof.
  unfold Fs.is_dir, Fs.iterdir.
  now destruct (Fs.lookup root p) as [[|es]|].
Qed.

(** ** The Locator *)

(** A loop that appends the elements that pass a test is a filter. *)
Lemma append_loop_is_filter {A} (test : A -> bool) (l acc : list A) :
  fold_left (fun acc x => if test x then acc ++ [x] else acc) l acc =
    acc ++ List.filter test l.
Proof.
  revert acc. induction l as [|x l IH]; intros acc; simpl.
  - now rewrite app_nil_r.
  - rewrite IH. destruct (test x); [|reflexivity].
    now rewrite <- app_assoc.
Qed.

Lemma fold_left_pointwise {A B} (f g : A -> B -> A) (l : list B) (a : A) :
  (forall a x, f a x = g a x) -> fold_left f l a = fold_left g l a.
Proof.
  intros Hfg. revert a. induction l as [|x l IH]; intros a; simpl;
    [reflexivity|]. now rewrite Hfg, IH.
Qed.

Lemma discover_without_pattern (H : Host) (root : Fs.node) (working_dir : Path)
  (include_global : bool) :
  _discover_venvs H root working_dir include_global None =
    List.filter (is_venv_dir H root) [working_dir // "venv"; working_dir // ".venv"]
    ++ (if include_global
        then List.filter (is_venv_dir H root)
               (Fs.iterdir root (get_default_venv_location H))
        else []).
Proof.
  unfold _discover_venvs.
  set (local := fold_left _ local_venv_names []).
  assert (local = List.filter (is_venv_dir H root)
                    [working_dir // "venv"; working_dir // ".venv"]) as ->.
  { subst local. unfold local_venv_names.
    rewrite (fold_left_pointwise _
               (fun acc venv_name =>
                  if is_venv_dir H root (working_dir // venv_name)
                  then acc ++ [working_dir // venv_name] else acc)).
    - simpl. unfold is_venv_dir.
      destruct (_ && _); destruct (_ && _); reflexivity.
    - intros acc venv_name. unfold is_venv_dir.
      now rewrite exists_and_is_dir. }
  destruct include_global; [|now rewrite app_nil_r].
  rewrite exists_and_is_dir.
  destruct (Fs.is_dir root (get_default_venv_location H)) eqn:E.
  - apply append_loop_is_filter.
  - rewrite (iterdir_not_dir _ _ E). simpl. now rewrite app_nil_r.
Qed.

Lemma discover_with_pattern (H : Host) (root : Fs.node) (working_dir : Path)
  (include_global : bool) (pat : string) :
  _discover_venvs H root working_dir include_global (Some pat) =
    if PyStr.truthy pat
    then List.filter (name_matches H pat)
           (_discover_venvs H root working_dir include_global None)
    else _discover_venvs H root working_dir include_global None.
Proof. reflexivity. Qed.

Lemma discovered_are_valid (H : Host) (root : Fs.node) (working_dir : Path)
  (include_global : bool) (name_pattern : option string) :
  Forall (fun p => _is_valid_venv H root p = true)
    (_discover_venvs H root working_dir include_global name_pattern).
Proof.
  assert (Forall (fun p => _is_valid_venv H root p = true)
            (_discover_venvs H root working_dir include_global None)) as Hnone.
  { rewrite discover_without_pattern. apply Forall_app. split.
    - apply List.Forall_forall. intros p [_ Hp]%List.filter_In.
      unfold is_venv_dir in Hp. now apply andb_true_iff in Hp.
    - destruct include_global; [|constructor].
      apply List.Forall_forall. intros p [_ Hp]%List.filter_In.
      unfold is_venv_dir in Hp. now apply andb_true_iff in Hp. }
  destruct name_pattern as [pat|]; [|exact Hnone].
  rewrite discover_with_pattern. destruct (PyStr.truthy pat); [|exact Hnone].
  rewrite List.Forall_forall in Hnone. apply List.Forall_forall.
  intros p [Hp _]%List.filter_In. now apply Hnone.
Qed.

(** C7.  Without a name pattern the Locator returns the local candidates
    [venv] and [.venv] of the working directory that are directories the
    Validator accepts, in that order, and then (when the registry is
    included) the entries of the registry that are directories the Validator
    accepts, in listing order.  A working directory or a registry that does
    not exist contributes nothing, and every path returned, with or without a
    pattern, passes the Validator. *)
Theorem discovery_order (H : Host) (root : Fs.node) (working_dir : Path)
  (include_global : bool) :
  let local :=
    List.filter (is_venv_dir H root)
      [working_dir // "venv"; working_dir // ".venv"] in
  let global :=
    List.filter (is_venv_dir H root)
      (Fs.iterdir root (get_default_venv_location H)) in
  _discover_venvs H root working_dir include_global None =
    local ++ (if include_global then global else [])
  /\ (Fs.path_exists root working_dir = false -> local = [])
  /\ (Fs.path_exists root (get_default_venv_location H) = false -> global = [])
  /\ (forall name_pattern,
        Forall (fun p => _is_valid_venv H root p = true)
          (_discover_venvs H root working_dir include_global name_pattern)).
Proof.
  cbv zeta. split; [apply discover_without_pattern|]. split; [|split].
  - intros Hmissing. simpl. unfold is_venv_dir, Fs.is_dir.
    pose proof (missing_parent root working_dir "venv" Hmissing) as E1.
    pose proof (missing_parent root working_dir ".venv" Hmissing) as E2.
    unfold Fs.path_exists in E1, E2.
    destruct (Fs.lookup root (working_dir // "venv")); [discriminate|].
    destruct (Fs.lookup root (working_dir // ".venv")); [discriminate|].
    reflexivity.
  - intros Hmissing. now rewrite (iterdir_missing _ _ Hmissing).
  - apply discovered_are_valid.
Qed.

Lemma discovery_order_witness :
  _discover_venvs Scenario.gamma_prints_5 Scenario.root ["work"] true None =
    [["work"; "venv"]; ["work"; ".venv"]]
    ++ [["srv"; ".venvs"; "first"]; ["srv"; ".venvs"; "gamma"]]
  /\ List.filter (is_venv_dir Scenario.healthy Scenario.root)
       [["nowhere"] // "venv"; ["nowhere"] // ".venv"] = []
  /\ List.filter (is_venv_dir (Scenario.host ["nobody"] TimedOut TimedOut)
                    Scenario.root)
       (Fs.iterdir Scenario.root ["nobody"; ".venvs"]) = [].
Proof.
  split; [|split].
  - exact (proj1 (discovery_order Scenario.gamma_prints_5 Scenario.root
                    ["work"] true)).
  - apply (proj1 (proj2 (discovery_order Scenario.healthy Scenario.root
                           ["nowhere"] true))).
    reflexivity.
  - apply (proj1 (proj2 (proj2
             (discovery_order (Scenario.host ["nobody"] TimedOut TimedOut)
                Scenario.root ["work"] true)))).
    reflexivity.
Defined.

(** C8, as stated, fails for the empty pattern: it is a pattern that matches
    no name of the registry, and the Locator returns the whole list. *)
Lemma empty_pattern_counterexample :
  _discover_venvs Scenario.healthy Scenario.root ["envs"] true (Some "") =
    [["home"; "u"; ".venvs"; "proj-a"]; ["home"; "u"; ".venvs"; "proj-b"];
     ["home"; "u"; ".venvs"; "other"]]
  /\ List.filter (name_matches Scenario.healthy "")
       (_discover_venvs Scenario.healthy Scenario.root ["envs"] true None) = [].
Proof. split; reflexivity. Qed.

(** C8 (amended).  With a pattern that is not empty, the Locator returns the
    candidates it finds without a pattern, filtered by matching the final
    path segment against the pattern: the survivors keep their order.  (The
    empty pattern is read as no pattern.) *)
Theorem pattern_filters_by_name (H : Host) (root : Fs.node) (working_dir : Path)
  (include_global : bool) (pat : string) :
  pat <> "" ->
  _discover_venvs H root working_dir include_global (Some pat) =
    List.filter
      (fun p => Fnmatch.fnmatch (is_windows (get_platform H)) (path_name p) pat)
      (_discover_venvs H root working_dir include_global None).
Proof.
  intros Hne. rewrite discover_with_pattern.
  destruct pat; [contradiction|reflexivity].
Qed.

(** The scenario of the specification: a registry with [proj-a], [proj-b]
    and [other], and the pattern [proj-*]. *)
Lemma pattern_filters_by_name_witness :
  _discover_venvs Scenario.healthy Scenario.root ["envs"] true (Some "proj-*") =
    [["home"; "u"; ".venvs"; "proj-a"]; ["home"; "u"; ".venvs"; "proj-b"]].
Proof.
  rewrite (pattern_filters_by_name Scenario.healthy Scenario.root ["envs"] true
             "proj-*" ltac:(discriminate)).
  reflexivity.
Defined.

(** ** [asyncio.gather] *)

Lemma collect_slots_filled {A} (slots : list (option A)) (outs : list (outcome A)) :
  length slots = length outs ->
  (forall i, i < length outs ->
     exists a, slots !! i = Some (Some a) /\ outs !! i = Some (Ret a)) ->
  exists results, collect_slots slots = Some results /\ outs = map Ret results.
Proof.
  revert outs. induction slots as [|s slots IH]; intros [|o outs] Hlen Hall;
    simpl in Hlen; try discriminate.
  - exists []. split; reflexivity.
  - destruct (Hall 0) as (a & Hs & Ho); [simpl; lia|].
    simpl in Hs, Ho. injection Hs as ->. injection Ho as ->.
    destruct (IH outs) as (results & Hc & ->); [lia| |].
    + intros i Hi. apply (Hall (S i)). simpl. lia.
    + exists (a :: results). simpl. rewrite Hc. split; reflexivity.
Qed.

(** Whatever the order of completion: a returned list holds the results of
    all the coroutines, in their order; a raised exception is the exception of
    one of them. *)
Lemma gather_complete_spec {A} (outs : list (outcome A)) (n : nat) :
  forall (pending sched : list nat) (slots : list (option A)),
    length pending = n ->
    length slots = length outs ->
    (forall i, i ∈ pending -> i < length outs) ->
    (forall i, i < length outs -> i ∉ pending ->
       exists a, slots !! i = Some (Some a) /\ outs !! i = Some (Ret a)) ->
    match gather_complete n pending sched outs slots with
    | Ret results => outs = map Ret results
    | Raise e => exists i, outs !! i = Some (Raise e)
    end.
Proof.
  induction n as [|n IH]; intros pending sched slots Hn Hlen Hpend Hdone.
  - destruct pending; [|discriminate]. simpl.
    destruct (collect_slots_filled slots outs Hlen) as (results & -> & ->);
      [|reflexivity].
    intros i Hi. apply Hdone; [exact Hi|]. apply not_elem_of_nil.
  - simpl. set (k := (hd 0 sched mod length pending)%nat).
    assert (k < length pending) as Hk.
    { subst k. apply Nat.mod_upper_bound. lia. }
    destruct (lookup_lt_is_Some_2 pending k Hk) as [i Hi]. rewrite Hi.
    assert (i ∈ pending) as Hin by (apply list_elem_of_lookup; eauto).
    pose proof (Hpend i Hin) as Hilt.
    destruct (lookup_lt_is_Some_2 outs i Hilt) as [o Ho]. rewrite Ho.
    destruct o as [a|e]; [|eauto].
    apply IH.
    + rewrite length_delete by eauto. lia.
    + now rewrite length_insert.
    + intros j Hj. apply Hpend. eapply list_elem_of_delete_inv, Hj.
    + intros j Hj Hnot. destruct (decide (j = i)) as [->|Hne].
      * exists a. split; [|exact Ho].
        apply list_lookup_insert_eq. now rewrite Hlen.
      * rewrite list_lookup_insert_ne by congruence.
        apply Hdone; [exact Hj|]. intros Hjin.
        apply (delete_Permutation pending k i) in Hi.
        rewrite Hi in Hjin. apply elem_of_cons in Hjin as [?|?]; eauto.
Qed.

Lemma gather_spec {A} (sched : list nat) (tasks : list (M A)) (w w' : World)
  (outs : list (outcome A)) :
  run_all tasks w = (outs, w') ->
  exists o,
    gather sched tasks w = (o, w')
    /\ match o with
       | Ret results => outs = map Ret results
       | Raise e => exists i, outs !! i = Some (Raise e)
       end.
Proof.
  intros Hrun. unfold gather. rewrite Hrun. eexists. split; [reflexivity|].
  apply gather_complete_spec.
  - apply length_seq.
  - apply length_replicate.
  - intros i Hi. apply elem_of_seq in Hi. lia.
  - intros i Hi Hnot. exfalso. apply Hnot, elem_of_seq. lia.
Qed.

(** Order preservation: when every coroutine returns, [gather] returns
    their results in the order of the coroutines, whatever the schedule. *)
Lemma gather_all_returned {A} (sched : list nat) (tasks : list (M A))
  (w w' : World) (results : list A) :
  run_all tasks w = (map Ret results, w') ->
  gather sched tasks w = (Ret results, w').
Proof.
  intros Hrun. destruct (gather_spec sched tasks w w' _ Hrun) as (o & -> & Ho).
  destruct o as [results'|e].
  - f_equal. f_equal. symmetry. revert Ho. clear. revert results'.
    induction results as [|a l IH]; intros [|b l'] E; simpl in E;
      try discriminate; [reflexivity|].
    injection E as -> E. f_equal. now apply IH.
  - destruct Ho as (i & Hi). rewrite list_lookup_fmap in Hi.
    destruct (results !! i); discriminate.
Qed.

(** When a coroutine raises, [gather] raises, whatever the schedule. *)
Lemma gather_one_raised {A} (sched : list nat) (tasks : list (M A))
  (w w' : World) (outs : list (outcome A)) (i : nat) (e : exn) :
  run_all tasks w = (outs, w') ->
  outs !! i = Some (Raise e) ->
  exists e' j, gather sched tasks w = (Raise e', w') /\ outs !! j = Some (Raise e').
Proof.
  intros Hrun Hi. destruct (gather_spec sched tasks w w' _ Hrun) as (o & -> & Ho).
  destruct o as [results|e'].
  - subst outs. rewrite list_lookup_fmap in Hi.
    destruct (results !! i); discriminate.
  - destruct Ho as (j & Hj). eauto.
Qed.

Lemma run_all_length {A} (tasks : list (M A)) (w w' : World)
  (outs : list (outcome A)) :
  run_all tasks w = (outs, w') -> length outs = length tasks.
Proof.
  revert w w' outs. induction tasks as [|t ts IH]; intros w w' outs; simpl.
  - now intros [= <- _].
  - destruct (t w) as [o w1]. destruct (run_all ts w1) as [os w2] eqn:E.
    intros [= <- _]. simpl. f_equal. eapply IH, E.
Qed.

Lemma run_all_outcomes {A B} (f : A -> M B) (P : outcome B -> Prop) (l : list A) :
  (forall x w o w', f x w = (o, w') -> P o) ->
  forall w outs w', run_all (map f l) w = (outs, w') -> Forall P outs.
Proof.
  intros Hf. induction l as [|x l IH]; intros w outs w'; simpl.
  - intros [= <- _]. constructor.
  - destruct (f x w) as [o w1] eqn:E.
    destruct (run_all (map f l) w1) as [os w2] eqn:E'.
    intros [= <- _]. constructor; [eapply Hf, E | eapply IH, E'].
Qed.

(** ** The Fan-out Coordinator *)

Lemma ctx_send_logged (m : ctx_msg) (w : World) :
  ctx_send m w = (Ret tt, logged w [m]).
Proof. reflexivity. Qed.

Lemma logged_logged (w : World) (a b : list ctx_msg) :
  logged (logged w a) b = logged w (a ++ b).
Proof. unfold logged. simpl. now rewrite app_assoc. Qed.

(** [devenv_venv_list] in direct style. *)
Lemma devenv_venv_list_unfold (H : Host) (sched : list nat) (working_dir : Path)
  (include_global : bool) (name_pattern : option string) (w : World) :
  let missing := negb (Fs.path_exists (fs w) working_dir) in
  let work_path := if missing then getcwd H else working_dir in
  let venv_paths :=
    _discover_venvs H (fs w) work_path include_global name_pattern in
  let preamble :=
    (if missing
     then [Warning ("Working directory does not exist: "
                    ++ path_str H working_dir)]
     else [])
    ++ [Info ("Searching for venvs in " ++ path_str H work_path)]
    ++ (if include_global
        then [Info ("Also searching in "
                    ++ path_str H (get_default_venv_location H))]
        else []) in
  devenv_venv_list H sched working_dir include_global name_pattern w =
    match venv_paths with
    | [] => (Ret [], logged w (preamble ++ [Info "No virtual environments found"]))
    | _ :: _ =>
        match
          gather sched (map (_get_venv_info H) venv_paths)
            (logged w (preamble
                       ++ [Info ("Found " ++ pretty (length venv_paths)
                                 ++ " venv(s), gathering details...")]))
        with
        | (Ret venv_infos, w') =>
            (Ret venv_infos,
             logged w'
               [Info ("Retrieved info for " ++ pretty (length venv_infos)
                      ++ " venv(s) ("
                      ++ pretty (length (List.filter is_valid venv_infos))
                      ++ " valid)")])
        | (Raise e, w') => (Raise e, w')
        end
    end.
Proof.
  cbv zeta. unfold devenv_venv_list, bind, read_fs, ret.
  destruct (Fs.path_exists (fs w) working_dir) eqn:Hex; cbn [negb];
    rewrite !ctx_send_logged; destruct include_global;
    rewrite ?ctx_send_logged, ?logged_logged; cbn [fs logged app];
    match goal with
    | |- context [_discover_venvs ?a ?b ?c ?d ?e] =>
        destruct (_discover_venvs a b c d e) as [|p ps]
    end;
    rewrite ?ctx_send_logged, ?logged_logged; cbn [app]; try reflexivity;
    match goal with
    | |- context [gather ?a ?b ?c] => destruct (gather a b c) as [[infos|e] w1]
    end;
    rewrite ?ctx_send_logged; reflexivity.
Qed.

(** Every descriptor [devenv_venv_list] returns satisfies the invariant. *)
Lemma list_descriptors_ok (H : Host) (sched : list nat) (working_dir : Path)
  (include_global : bool) (name_pattern : option string) (w w' : World)
  (ds : list VenvInfo) :
  devenv_venv_list H sched working_dir include_global name_pattern w = (Ret ds, w') ->
  Forall descriptor_ok ds.
Proof.
  rewrite devenv_venv_list_unfold. cbv zeta.
  destruct (_discover_venvs _ _ _ _ _) as [|p ps]; [intros [= <- _]; constructor|].
  set (tasks := map (_get_venv_info H) (p :: ps)). set (w0 := logged w _).
  destruct (run_all tasks w0) as [outs w1] eqn:Hrun.
  destruct (gather_spec sched tasks w0 w1 outs Hrun) as (o & -> & Ho).
  destruct o as [results|e]; [|discriminate]. intros [= <- _].
  pose proof (run_all_outcomes (_get_venv_info H)
                (fun o => match o with Ret d => descriptor_ok d | Raise _ => True end)
                (p :: ps)) as Hall.
  specialize (Hall ltac:(intros x wx [d|e] wx' E; [eapply prober_descriptor_ok, E | exact I])
                w0 outs w1 Hrun).
  subst outs. clear -Hall. induction results as [|d l IH]; [constructor|].
  inversion Hall; subst. constructor; auto.
Qed.

(** Every descriptor [devenv_venv_create] returns satisfies the invariant. *)
Lemma create_descriptor_ok (H : Host) (name : string) (path : option Path)
  (python_executable : option string) (with_pip : bool) (w w' : World)
  (d : VenvInfo) :
  devenv_venv_create H name path python_executable with_pip w = (Ret d, w') ->
  descriptor_ok d.
Proof.
  unfold devenv_venv_create, _get_venv_info_unresolved, bind, read_fs, ret,
    mkdir_parents.
  repeat match goal with
         | |- context [ctx_send ?m ?w] =>
             rewrite (ctx_send_logged m w); cbn beta iota
         | |- context [_get_venv_info ?h ?p ?w] =>
             let E := fresh "E" in
             destruct (_get_venv_info h p w) as [[?|?] ?] eqn:E;
             [apply prober_descriptor_ok in E|]
         | |- context [run_command ?h ?c ?t ?k ?w] =>
             destruct (run_command h c t k w) as [[?|?] ?]
         | |- context [if ?b then _ else _] => destruct b
         | |- context [match ?x with _ => _ end] => destruct x
         end;
    intros [= <- _];
    solve [ unfold descriptor_ok; discriminate
          | unfold descriptor_ok in *; cbn [is_valid python_version];
            assumption ].
Qed.

(** C5.  Every descriptor that probing, listing or creating returns satisfies
    the invariant: [is_valid = true] implies a version other than
    "unknown". *)
Theorem descriptors_satisfy_invariant (H : Host) :
  (forall venv_path w d w',
     _get_venv_info H venv_path w = (Ret d, w') -> descriptor_ok d)
  /\ (forall sched working_dir include_global name_pattern w ds w',
        devenv_venv_list H sched working_dir include_global name_pattern w
        = (Ret ds, w') ->
        Forall descriptor_ok ds)
  /\ (forall name path python_executable with_pip w d w',
        devenv_venv_create H name path python_executable with_pip w
        = (Ret d, w') ->
        descriptor_ok d).
Proof.
  split; [|split].
  - intros venv_path w d w'. apply prober_descriptor_ok.
  - intros sched working_dir include_global name_pattern w ds w'.
    apply list_descriptors_ok.
  - intros name path python_executable with_pip w d w'.
    apply create_descriptor_ok.
Qed.

Lemma descriptors_satisfy_invariant_witness :
  (exists d w',
     _get_venv_info Scenario.healthy ["envs"; "alpha"] Scenario.start = (Ret d, w')
     /\ descriptor_ok d)
  /\ (exists ds w',
        devenv_venv_list Scenario.healthy [] ["work"] true None Scenario.start
        = (Ret ds, w')
        /\ length ds = 5 /\ Forall descriptor_ok ds)
  /\ (exists d w',
        devenv_venv_create Scenario.creating "fresh" None None true
          (Scenario.world Scenario.before_create) = (Ret d, w')
        /\ is_valid d = true /\ descriptor_ok d).
Proof.
  destruct (descriptors_satisfy_invariant Scenario.healthy) as (A & B & _).
  destruct (descriptors_satisfy_invariant Scenario.creating) as (_ & _ & C).
  split; [|split].
  - eexists. eexists. split; [vm_compute; reflexivity|].
    eapply (A ["envs"; "alpha"] Scenario.start). vm_compute. reflexivity.
  - eexists. eexists. split; [vm_compute; reflexivity|].
    split; [reflexivity|].
    eapply (B [] ["work"] true None Scenario.start). vm_compute. reflexivity.
  - eexists. eexists. split; [vm_compute; reflexivity|].
    split; [reflexivity|].
    eapply (C "fresh" None None true (Scenario.world Scenario.before_create)).
    vm_compute. reflexivity.
Defined.

(** When every probe returns, the Coordinator returns the descriptors of the
    identifiers in the order of the identifiers, whatever the order in which
    the probes complete. *)
Lemma fan_out_preserves_order (H : Host) (sched : list nat) (working_dir : Path)
  (include_global : bool) (name_pattern : option string) (w : World)
  (ds : list VenvInfo) :
  let work_path :=
    if Fs.path_exists (fs w) working_dir then working_dir else getcwd H in
  let venv_paths :=
    _discover_venvs H (fs w) work_path include_global name_pattern in
  (forall w0, fs w0 = fs w -> spawn_calls w0 = spawn_calls w ->
     exists w1, run_all (map (_get_venv_info H) venv_paths) w0 = (map Ret ds, w1)) ->
  fst (devenv_venv_list H sched working_dir include_global name_pattern w) = Ret ds
  /\ length ds = length venv_paths.
Proof.
  cbv zeta. intros Hrun. rewrite devenv_venv_list_unfold. cbv zeta.
  replace (if negb (Fs.path_exists (fs w) working_dir)
           then getcwd H else working_dir)
    with (if Fs.path_exists (fs w) working_dir then working_dir else getcwd H)
    by (destruct (Fs.path_exists (fs w) working_dir); reflexivity).
  destruct (_discover_venvs _ _ _ _ _) as [|p ps].
  - destruct (Hrun w eq_refl eq_refl) as (w1 & Hw1). simpl in Hw1.
    destruct ds; [split; reflexivity | discriminate].
  - match goal with
    | |- context [gather sched ?t ?w0] =>
        destruct (Hrun w0 eq_refl eq_refl) as (w1 & Hw1)
    end.
    rewrite (gather_all_returned sched _ _ _ _ Hw1). split; [reflexivity|].
    apply run_all_length in Hw1. now rewrite !length_map in Hw1.
Qed.

(** When a probe raises, the Coordinator raises, whatever the order in which
    the probes complete: the exception of a probe is not turned into a
    descriptor. *)
Lemma fan_out_propagates (H : Host) (sched : list nat) (working_dir : Path)
  (include_global : bool) (name_pattern : option string) (w : World) :
  let work_path :=
    if Fs.path_exists (fs w) working_dir then working_dir else getcwd H in
  let venv_paths :=
    _discover_venvs H (fs w) work_path include_global name_pattern in
  (forall w0, fs w0 = fs w -> spawn_calls w0 = spawn_calls w ->
     exists outs w1 i e,
       run_all (map (_get_venv_info H) venv_paths) w0 = (outs, w1)
       /\ outs !! i = Some (Raise e)) ->
  exists e,
    fst (devenv_venv_list H sched working_dir include_global name_pattern w)
    = Raise e.
Proof.
  cbv zeta. intros Hrun. rewrite devenv_venv_list_unfold. cbv zeta.
  replace (if negb (Fs.path_exists (fs w) working_dir)
           then getcwd H else working_dir)
    with (if Fs.path_exists (fs w) working_dir then working_dir else getcwd H)
    by (destruct (Fs.path_exists (fs w) working_dir); reflexivity).
  destruct (_discover_venvs _ _ _ _ _) as [|p ps].
  - destruct (Hrun w eq_refl eq_refl) as (outs & w1 & i & e & Hw1 & Hi).
    simpl in Hw1. injection Hw1 as <- _. destruct i; discriminate.
  - match goal with
    | |- context [gather sched ?t ?w0] =>
        destruct (Hrun w0 eq_refl eq_refl) as (outs & w1 & i & e & Hw1 & Hi);
        destruct (gather_one_raised sched t w0 w1 outs i e Hw1 Hi)
          as (e' & j & -> & _)
    end.
    eauto.
Qed.

(** C6, on the code.  Discovery on [Scenario.gamma_prints_5] finds four
    identifiers; the probe of the last one raises, [gather] is called without
    [return_exceptions], and the Coordinator raises instead of returning four
    descriptors, whatever the order in which the probes complete. *)
Theorem coordinator_raises_with_a_probe (sched : list nat) :
  length (_discover_venvs Scenario.gamma_prints_5 Scenario.root ["work"] true None)
  = 4
  /\ fst (devenv_venv_list Scenario.gamma_prints_5 sched ["work"] true None
            Scenario.start)
     = Raise (TypeError "object of type 'int' has no len()").
Proof.
  split; [reflexivity|].
  rewrite devenv_venv_list_unfold. cbv zeta.
  set (paths := _discover_venvs _ _ _ _ _). vm_compute in paths. subst paths.
  cbv iota beta.
  match goal with
  | |- context [gather sched ?t ?w0] =>
      set (tasks := t); set (w := w0);
      destruct (run_all tasks w) as [outs w1] eqn:Hrun
  end.
  destruct (gather_one_raised sched tasks w w1 outs 3
              (TypeError "object of type 'int' has no len()") Hrun)
    as (e & j & -> & Hj).
  - vm_compute in Hrun. injection Hrun as <- _. reflexivity.
  - vm_compute in Hrun. injection Hrun as <- _. simpl.
    do 4 (destruct j as [|j]; [simpl in Hj; congruence|]).
    discriminate.
Qed.

(** On a host where every probe returns, the five descriptors come back in
    the order of discovery under every schedule. *)
Example healthy_listing_any_schedule (sched : list nat) :
  fst (devenv_venv_list Scenario.healthy sched ["work"] true None Scenario.start)
  = Ret (map (fun n : string * string =>
                {| name := n.1; path := n.2; python_version := "3.11.5";
                   packages_count := 2; is_valid := true |})
           [("venv", "/work/venv"); (".venv", "/work/.venv");
            ("proj-a", "/home/u/.venvs/proj-a");
            ("proj-b", "/home/u/.venvs/proj-b");
            ("other", "/home/u/.venvs/other")]).
Proof.
  apply (fan_out_preserves_order Scenario.healthy sched ["work"] true None
           Scenario.start).
  intros [root calls log] Hfs Hcalls. simpl in Hfs, Hcalls. subst root calls.
  eexists. vm_compute. reflexivity.
Qed.

(** C10.  When the working directory given to [devenv_venv_list] does not
    exist (and the current directory of the process does), the operation is
    the operation on the current directory, after one warning: the same
    outcome, the same probes, the same messages after the warning. *)
Theorem missing_working_dir_uses_cwd (H : Host) (sched : list nat)
  (working_dir : Path) (include_global : bool) (name_pattern : option string)
  (w : World) :
  Fs.path_exists (fs w) working_dir = false ->
  Fs.path_exists (fs w) (getcwd H) = true ->
  devenv_venv_list H sched working_dir include_global name_pattern w =
    devenv_venv_list H sched (getcwd H) include_global name_pattern
      (logged w [Warning ("Working directory does not exist: "
                          ++ path_str H working_dir)]).
Proof.
  intros Hmissing Hcwd. rewrite !devenv_venv_list_unfold. cbv zeta.
  cbn [fs logged]. rewrite Hmissing, Hcwd. cbn [negb].
  rewrite !logged_logged. reflexivity.
Qed.

Lemma missing_working_dir_uses_cwd_witness :
  devenv_venv_list Scenario.healthy [] ["nowhere"] false None Scenario.start =
    devenv_venv_list Scenario.healthy [] ["work"] false None
      (logged Scenario.start
         [Warning "Working directory does not exist: /nowhere"])
  /\ fst (devenv_venv_list Scenario.healthy [] ["nowhere"] false None
            Scenario.start)
     = Ret [ {| name := "venv"; path := "/work/venv";
                python_version := "3.11.5"; packages_count := 2;
                is_valid := true |};
             {| name := ".venv"; path := "/work/.venv";
                python_version := "3.11.5"; packages_count := 2;
                is_valid := true |} ].
Proof.
  split.
  - apply (missing_working_dir_uses_cwd Scenario.healthy [] ["nowhere"] false
             None Scenario.start); reflexivity.
  - reflexivity.
Defined.


(** ** The JSON decoder never runs out of fuel *)

Lemma skip_ws_length (s : list ascii) :
  length (Json.skip_ws s) <= length s.
Proof.
  induction s as [|c r IH]; simpl; [lia|].
  destruct (Json.is_ws c); simpl; lia.
Qed.

Lemma span_digits_length (s : list ascii) :
  length (Json.span_digits s).2 <= length s.
Proof.
  induction s as [|c r IH]; simpl; [lia|].
  destruct (Json.is_digit c); [|simpl; lia].
  destruct (Json.span_digits r) as [ds r']. simpl in *. lia.
Qed.

Lemma push_rest (c : N) (o : option (list N * list ascii)) cs rest :
  Json.push c o = Some (cs, rest) -> exists cs', o = Some (cs', rest).
Proof. destruct o as [[cs' r]|]; simpl; [intros [= _ <-]; eauto | discriminate]. Qed.

Lemma scanstring_length (n : nat) :
  forall s cs rest,
    length s <= n ->
    Json.scanstring s = Some (cs, rest) -> length rest < length s.
Proof.
  induction n as [|n IH]; intros s cs rest Hn.
  - destruct s; [discriminate | simpl in Hn; lia].
  - destruct s as [|c r]; [discriminate|]. simpl in Hn |- *.
    repeat case_match; try discriminate; subst; cbn [length] in *;
      try (intros [= _ <-]; lia);
      intros (cs' & E)%push_rest; apply IH in E; cbn [length] in *; lia.
Qed.

Lemma after_length (lit : string) (s rest : list ascii) :
  Json.after lit s = Some rest -> length s = String.length lit + length rest.
Proof.
  revert s. induction lit as [|a lit IH]; intros s; simpl.
  - now intros [= ->].
  - destruct s as [|b s]; [discriminate|].
    destruct (Ascii.eqb a b); [|discriminate].
    intros E%IH. simpl. lia.
Qed.

Lemma scan_int_length (s : list ascii) lit rest :
  Json.scan_int s = Some (lit, rest) -> length rest < length s.
Proof.
  unfold Json.scan_int.
  destruct s as [|c r]; [discriminate|].
  destruct (Ascii.eqb c "-").
  - destruct r as [|d r']; [discriminate|].
    destruct (Ascii.eqb d "0"); [intros [= _ <-]; simpl; lia|].
    destruct (Json.is_digit d); [|discriminate].
    pose proof (span_digits_length r').
    destruct (Json.span_digits r'). intros [= _ <-]. simpl in *. lia.
  - destruct (Ascii.eqb c "0"); [intros [= _ <-]; simpl; lia|].
    destruct (Json.is_digit c); [|discriminate].
    pose proof (span_digits_length r).
    destruct (Json.span_digits r). intros [= _ <-]. simpl in *. lia.
Qed.

Lemma scan_frac_length (s : list ascii) :
  length (Json.scan_frac s).2 <= length s.
Proof.
  unfold Json.scan_frac. destruct s as [|p [|d r]]; simpl; try lia.
  destruct (_ && _); [|simpl; lia].
  pose proof (span_digits_length r). destruct (Json.span_digits r).
  simpl in *. lia.
Qed.

Lemma scan_exp_length (s : list ascii) :
  length (Json.scan_exp s).2 <= length s.
Proof.
  unfold Json.scan_exp. destruct s as [|e r]; simpl; [lia|].
  destruct (_ || _); [|simpl; lia].
  destruct r as [|c r']; [simpl; lia|].
  destruct (_ || _).
  - destruct r' as [|d r2]; [simpl; lia|].
    destruct (Json.is_digit d); [|simpl; lia].
    pose proof (span_digits_length r2). destruct (Json.span_digits r2).
    simpl in *. lia.
  - destruct (Json.is_digit c); [|simpl; lia].
    pose proof (span_digits_length r'). destruct (Json.span_digits r').
    simpl in *. lia.
Qed.

Lemma scan_number_length (s : list ascii) v rest :
  Json.scan_number s = Some (v, rest) -> length rest < length s.
Proof.
  unfold Json.scan_number.
  destruct (Json.scan_int s) as [[integer r]|] eqn:Hi; [|discriminate].
  apply scan_int_length in Hi.
  pose proof (scan_frac_length r). destruct (Json.scan_frac r) as [frac r1].
  pose proof (scan_exp_length r1). destruct (Json.scan_exp r1) as [exp r2].
  simpl in *. destruct frac, exp; intros [= _ <-]; lia.
Qed.

Lemma scan_atom_ok (s : list ascii) : scan_ok s (Json.scan_atom s).
Proof.
  unfold Json.scan_atom, scan_ok.
  repeat match goal with
         | |- context [Json.after ?lit s] =>
             let E := fresh "E" in
             destruct (Json.after lit s) eqn:E;
             [apply after_length in E; simpl in E; lia|]
         | |- context [Json.scan_number s] =>
             let E := fresh "E" in
             destruct (Json.scan_number s) as [[? ?]|] eqn:E;
             [apply scan_number_length in E; exact E|]
         end.
  exact I.
Qed.

Lemma scan_ok_longer (s s' : list ascii) (r : Json.res Json.pyval) :
  length s <= length s' -> scan_ok s r -> scan_ok s' r.
Proof. destruct r; simpl; [lia | trivial | trivial]. Qed.

(** With twice the length of the text (and one or two more) as fuel, the
    three scanners end with a value or a decoding error. *)
Lemma scan_fuel (fuel : nat) :
  (forall s, 2 * length s + 1 <= fuel -> scan_ok s (Json.scan_once fuel s))
  /\ (forall s acc,
        2 * length s + 2 <= fuel -> scan_ok s (Json.array_items fuel s acc))
  /\ (forall s acc,
        2 * length s + 2 <= fuel -> scan_ok s (Json.object_pairs fuel s acc)).
Proof.
  induction fuel as [|f (IHs & IHa & IHo)].
  - repeat split; intros; simpl in *; lia.
  - split; [|split].
    + intros [|c r] Hf; [exact I|]. cbn [Json.scan_once]. cbn [length] in Hf.
      destruct (Ascii.eqb c Json.dq).
      { destruct (Json.scanstring r) as [[cs rest]|] eqn:E; [|exact I].
        apply (scanstring_length _ _ _ _ (le_n _)) in E. simpl. lia. }
      pose proof (skip_ws_length r) as Hws.
      destruct (Ascii.eqb c "{").
      { destruct (Json.skip_ws r) as [|q rest]; [exact I|]. cbn [length] in Hws.
        destruct (Ascii.eqb q "}"); [simpl; lia|].
        destruct (Ascii.eqb q Json.dq); [|exact I].
        apply (scan_ok_longer rest); [simpl; lia|]. apply IHo. lia. }
      destruct (Ascii.eqb c "[").
      { destruct (Json.skip_ws r) as [|q rest]; [exact I|]. cbn [length] in Hws.
        destruct (Ascii.eqb q "]"); [simpl; lia|].
        apply (scan_ok_longer (q :: rest)); [simpl; lia|]. apply IHa.
        simpl. lia. }
      apply scan_atom_ok.
    + intros s acc Hf. cbn [Json.array_items].
      pose proof (IHs s ltac:(lia)) as Hv.
      destruct (Json.scan_once f s) as [v rest| |]; [|exact I|contradiction].
      simpl in Hv. pose proof (skip_ws_length rest) as Hws.
      destruct (Json.skip_ws rest) as [|c rest']; [exact I|]. cbn [length] in Hws.
      destruct (Ascii.eqb c "]"); [simpl; lia|].
      destruct (Ascii.eqb c ","); [|exact I].
      pose proof (skip_ws_length rest') as Hws'.
      apply (scan_ok_longer (Json.skip_ws rest')); [lia|]. apply IHa. lia.
    + intros s acc Hf. cbn [Json.object_pairs].
      destruct (Json.scanstring s) as [[key r]|] eqn:E; [|exact I].
      apply (scanstring_length _ _ _ _ (le_n _)) in E.
      pose proof (skip_ws_length r) as Hws.
      destruct (Json.skip_ws r) as [|c r1]; [exact I|]. cbn [length] in Hws.
      destruct (Ascii.eqb c ":"); [|exact I].
      pose proof (skip_ws_length r1) as Hws1.
      pose proof (IHs (Json.skip_ws r1) ltac:(lia)) as Hv.
      destruct (Json.scan_once f (Json.skip_ws r1)) as [v rest| |];
        [|exact I|contradiction].
      simpl in Hv. pose proof (skip_ws_length rest) as Hws2.
      destruct (Json.skip_ws rest) as [|d rest']; [exact I|]. cbn [length] in Hws2.
      destruct (Ascii.eqb d "}"); [simpl; lia|].
      destruct (Ascii.eqb d ","); [|exact I].
      pose proof (skip_ws_length rest') as Hws3.
      destruct (Json.skip_ws rest') as [|q r2]; [exact I|]. cbn [length] in Hws3.
      destruct (Ascii.eqb q Json.dq); [|exact I].
      apply (scan_ok_longer r2); [lia|]. apply IHo. lia.
Qed.

(** [json.loads] of the model is total: the fuel of [Json.decode] is always
    enough, so that [Json.JSONDecodeError] always stands for an error of the
    decoder. *)
Lemma decode_never_out_of_fuel (cs : list ascii) :
  Json.decode cs <> Json.OutOfFuel.
Proof.
  unfold Json.decode. intros E.
  pose proof (skip_ws_length cs) as Hws.
  pose proof (proj1 (scan_fuel (2 * length cs + 1)) (Json.skip_ws cs)
                ltac:(lia)) as Hok.
  rewrite E in Hok. exact Hok.
Qed.

(** A document that is an array of two objects, one that is a number, and
    text that is not JSON. *)
Example loads_two_packages :
  exists a b, Json.loads Scenario.two_packages = Json.Value (Json.PList [a; b]).
Proof. vm_compute. eauto. Qed.

Example loads_number : Json.loads "5" = Json.Value (Json.PInt "5").
Proof. reflexivity. Qed.

Example loads_garbage : Json.loads "not valid json" = Json.JSONDecodeError.
Proof. reflexivity. Qed.

(** ** Shell patterns *)

Example fnmatch_proj :
  map (fun n => Fnmatch.fnmatch false n "proj-*") ["proj-a"; "proj-b"; "other"]
  = [true; true; false].
Proof. reflexivity. Qed.

Example fnmatch_classes :
  map (fun n => Fnmatch.fnmatch false n "v[0-9]?-[!a-c]*")
    ["v1x-d"; "v1x-a"; "v12-zeta"; "vxx-d"]
  = [true; false; true; false].
Proof. reflexivity. Qed.

Example fnmatch_empty_pattern :
  Fnmatch.fnmatch false "proj-a" "" = false /\ Fnmatch.fnmatch false "" "" = true.
Proof. split; reflexivity. Qed.

(** * Properties of the other tools *)

(** ** Removing a tree *)

Lemma entry_remove_same (seg : string) es :
  Fs.entry seg (remove_entry seg es) = None.
Proof.
  induction es as [|[n x] es IH]; [reflexivity|].
  simpl. destruct (String.eqb n seg) eqn:E; [exact IH|].
  simpl. now rewrite E.
Qed.

Lemma entry_remove_other (seg seg' : string) es :
  String.eqb seg seg' = false ->
  Fs.entry seg' (remove_entry seg es) = Fs.entry seg' es.
Proof.
  intros Hne. induction es as [|[n x] es IH]; [reflexivity|].
  simpl. destruct (String.eqb n seg) eqn:E.
  - apply String.eqb_eq in E. subst n. now rewrite Hne.
  - simpl. now rewrite IH.
Qed.

Lemma entry_set_same (seg : string) x es :
  Fs.entry seg (Fs.set_entry seg x es) = Some x.
Proof.
  induction es as [|[n y] es IH]; simpl.
  - now rewrite String.eqb_refl.
  - destruct (String.eqb n seg) eqn:E; simpl; now rewrite E.
Qed.

Lemma entry_set_other (seg seg' : string) x es :
  String.eqb seg seg' = false ->
  Fs.entry seg' (Fs.set_entry seg x es) = Fs.entry seg' es.
Proof.
  intros Hne. induction es as [|[n y] es IH]; simpl.
  - now rewrite Hne.
  - destruct (String.eqb n seg) eqn:E; simpl.
    + apply String.eqb_eq in E. subst n. now rewrite Hne.
    + now rewrite IH.
Qed.

Lemma rmtree_below (es : list (string * Fs.node)) (seg s : string) (p : Path) :
  rmtree (Fs.Dir es) (seg :: s :: p) =
    match Fs.entry seg es with
    | Some child => Fs.Dir (Fs.set_entry seg (rmtree child (s :: p)) es)
    | None => Fs.Dir es
    end.
Proof. reflexivity. Qed.

Lemma rmtree_gone (p : Path) :
  forall root, p <> [] -> Fs.lookup (rmtree root p) p = None.
Proof.
  induction p as [|seg p' IH]; intros root Hp; [congruence|].
  destruct root as [|es]; [reflexivity|].
  destruct p' as [|s p''].
  - simpl. now rewrite entry_remove_same.
  - rewrite rmtree_below. destruct (Fs.entry seg es) as [child|] eqn:E.
    + cbn [Fs.lookup]. rewrite entry_set_same. now apply IH.
    + cbn [Fs.lookup]. now rewrite E.
Qed.

Lemma rmtree_shape (root : Fs.node) (p : Path) :
  p <> [] ->
  match rmtree root p, root with
  | Fs.File, Fs.File | Fs.Dir _, Fs.Dir _ => True
  | _, _ => False
  end.
Proof.
  destruct p as [|seg p']; [congruence|]. intros _.
  destruct root as [|es]; [exact I|].
  destruct p' as [|s p'']; [exact I|].
  rewrite rmtree_below. now destruct (Fs.entry seg es).
Qed.

Lemma rmtree_outside (q : Path) :
  forall root p,
    under p q = false ->
    Fs.path_exists (rmtree root p) q = Fs.path_exists root q
    /\ Fs.is_dir (rmtree root p) q = Fs.is_dir root q.
Proof.
  unfold Fs.path_exists, Fs.is_dir.
  induction q as [|s q' IH]; intros root p Hu.
  - destruct p as [|seg p']; [discriminate|].
    pose proof (rmtree_shape root (seg :: p') ltac:(congruence)) as Hs.
    cbn [Fs.lookup]. destruct (rmtree root (seg :: p')), root; tauto.
  - destruct p as [|seg p']; [discriminate|].
    destruct root as [|es]; [now split|].
    cbn [under] in Hu.
    destruct (String.eqb seg s) eqn:E.
    + apply String.eqb_eq in E. subst s. cbn [andb] in Hu.
      destruct p' as [|s' p'']; [discriminate|].
      rewrite rmtree_below. destruct (Fs.entry seg es) as [child|] eqn:Ee; [|now split].
      cbn [Fs.lookup]. rewrite entry_set_same, Ee. now apply IH.
    + destruct p' as [|s' p''].
      * cbn [rmtree Fs.lookup]. now rewrite (entry_remove_other _ _ _ E).
      * rewrite rmtree_below. destruct (Fs.entry seg es) as [child|] eqn:Ee; [|now split].
        cbn [Fs.lookup]. now rewrite (entry_set_other _ _ _ _ E).
Qed.

Lemma rmtree_apart (q : Path) :
  forall root p,
    under p q = false -> under q p = false ->
    Fs.lookup (rmtree root p) q = Fs.lookup root q.
Proof.
  induction q as [|s q' IH]; intros root p Hu Hu'; [discriminate|].
  destruct p as [|seg p']; [discriminate|].
  destruct root as [|es]; [reflexivity|].
  cbn [under] in Hu, Hu'.
  destruct (String.eqb seg s) eqn:E.
  - apply String.eqb_eq in E. subst s. rewrite String.eqb_refl in Hu'.
    cbn [andb] in Hu, Hu'.
    destruct p' as [|s' p'']; [discriminate|].
    rewrite rmtree_below. destruct (Fs.entry seg es) as [child|] eqn:Ee; [|reflexivity].
    cbn [Fs.lookup]. rewrite entry_set_same, Ee. now apply IH.
  - destruct p' as [|s' p''].
    + cbn [rmtree Fs.lookup]. now rewrite (entry_remove_other _ _ _ E).
    + rewrite rmtree_below. destruct (Fs.entry seg es) as [child|] eqn:Ee; [|reflexivity].
      cbn [Fs.lookup]. now rewrite (entry_set_other _ _ _ _ E).
Qed.

(** ** Deleting an environment *)








(** X3.  A confirmed deletion removes the target and nothing else: when the
    target passes the safety check, probing it returns, the client confirms
    and nothing is in the way of the removal, the tool reports success, the
    target no longer exists, every path outside it exists (and is a
    directory) exactly as after the probes, and every path apart from it
    holds what it held. *)
Theorem confirmed_delete_removes_only_target (H : Host) (R : Removal)
  (name : option string) (path : option Path) (t : Path) (w w1 : World)
  (info : VenvInfo) :
  target_of H path name = Some t ->
  t <> [] ->
  Fs.path_exists (fs w) t = true ->
  has_venv_markers (fs w) t = true ->
  _get_venv_info H t w = (Ret info, w1) ->
  (forall msg, elicit R msg = Ret (Accepted (Some true))) ->
  (forall root, rmtree_fails R root t = None) ->
  exists w',
    devenv_venv_delete H R name path w =
      (Ret ("Successfully deleted virtual environment: " ++ path_name t)%string, w')
    /\ Fs.path_exists (fs w') t = false
    /\ spawn_calls w' = spawn_calls w1
    /\ (forall q, under t q = false ->
          Fs.path_exists (fs w') q = Fs.path_exists (fs w1) q
          /\ Fs.is_dir (fs w') q = Fs.is_dir (fs w1) q)
    /\ (forall q, under t q = false -> under q t = false ->
          Fs.lookup (fs w') q = Fs.lookup (fs w1) q).
Proof.
  intros Ht Hne Hx Hm Hinfo Hyes Hok. unfold devenv_venv_delete. rewrite Ht.
  unfold bind at 1. unfold read_fs at 1. rewrite Hx, Hm, andb_false_r.
  cbn [negb]. unfold bind at 1. rewrite Hinfo.
  unfold bind at 1. rewrite Hyes. cbn [confirmed negb].
  unfold bind at 1. rewrite ctx_send_logged.
  unfold bind at 1. unfold read_fs at 1. cbn [logged fs].
  rewrite Hok. unfold bind, set_fs, ctx_send, ret. cbn [fs spawn_calls ctx_log].
  eexists. split; [reflexivity|]. cbn [fs spawn_calls].
  split; [|split; [reflexivity|split]].
  - unfold Fs.path_exists. now rewrite rmtree_gone.
  - intros q Hq. now apply rmtree_outside.
  - intros q Hq Hq'. now apply rmtree_apart.
Qed.

Lemma confirmed_delete_removes_only_target_witness :
  exists w',
    devenv_venv_delete Scenario.healthy Cases.confirming (Some "proj-a") None
      Scenario.start =
      (Ret "Successfully deleted virtual environment: proj-a", w')
    /\ Fs.path_exists (fs w') ["home"; "u"; ".venvs"; "proj-a"] = false
    /\ Fs.path_exists (fs w') ["home"; "u"; ".venvs"; "proj-b"; "bin"; "python"]
       = true.
Proof.
  pose (t := ["home"; "u"; ".venvs"; "proj-a"]).
  pose (r := _get_venv_info Scenario.healthy t Scenario.start).
  assert (Hr : exists info, r.1 = Ret info) by (vm_compute; eauto).
  destruct Hr as [info Hr].
  destruct (confirmed_delete_removes_only_target Scenario.healthy Cases.confirming
              (Some "proj-a") None t Scenario.start r.2 info)
    as (w' & Hd & Hgone & _ & Hout & _).
  - reflexivity.
  - discriminate.
  - reflexivity.
  - reflexivity.
  - rewrite <- Hr. apply surjective_pairing.
  - reflexivity.
  - reflexivity.
  - exists w'. split; [exact Hd|]. split; [exact Hgone|].
    rewrite (proj1 (Hout ["home"; "u"; ".venvs"; "proj-b"; "bin"; "python"] eq_refl)).
    reflexivity.
Defined.

(** X4.  The deletion tool raises only what probing the target or asking the
    client raised: a failure of the removal itself is reported as a text. *)
Theorem delete_raises_only_from_probe_or_client (H : Host) (R : Removal)
  (name : option string) (path : option Path) (w : World) (e : exn) :
  (devenv_venv_delete H R name path w).1 = Raise e ->
  exists t,
    target_of H path name = Some t
    /\ ((_get_venv_info H t w).1 = Raise e \/ exists msg, elicit R msg = Raise e).
Proof.
  unfold devenv_venv_delete.
  destruct (target_of H path name) as [t|]; [|discriminate].
  unfold bind at 1. unfold read_fs at 1.
  destruct (negb (Fs.path_exists (fs w) t)); [discriminate|].
  destruct (negb (_is_valid_venv H (fs w) t) && negb (has_venv_markers (fs w) t));
    [discriminate|].
  intros Hr. exists t. split; [reflexivity|]. revert Hr.
  unfold bind at 1.
  destruct (_get_venv_info H t w) as [[info|e'] w1]; [|intros [= ->]; now left].
  unfold bind at 1.
  match goal with |- context [elicit R ?m] => destruct (elicit R m) as [a|e'] eqn:Ea end.
  - destruct (negb (confirmed a)); [discriminate|].
    unfold bind at 1. rewrite ctx_send_logged.
    unfold bind at 1. unfold read_fs at 1.
    destruct (rmtree_fails R _ t) as [[[m|m] left]|];
      unfold bind, set_fs, ctx_send, ret; discriminate.
  - intros [= ->]. right. eauto.
Qed.

Lemma delete_raises_only_from_probe_or_client_witness :
  exists t,
    target_of Scenario.gamma_prints_5 None (Some "gamma") = Some t
    /\ ((_get_venv_info Scenario.gamma_prints_5 t Scenario.start).1
          = Raise (TypeError "object of type 'int' has no len()")
        \/ exists msg,
             elicit Cases.confirming msg
             = Raise (TypeError "object of type 'int' has no len()")).
Proof.
  apply (delete_raises_only_from_probe_or_client Scenario.gamma_prints_5
           Cases.confirming (Some "gamma") None Scenario.start).
  vm_compute. reflexivity.
Defined.

(** ** Shells and activation *)

(** X5.  The default shell is powershell on Windows, and only there.
    Elsewhere it is the last component of SHELL (of [/bin/bash] when SHELL
    is not set) if that is bash, zsh or fish, and bash for every other
    value: never cmd, never powershell. *)
Theorem default_shell_is_known (H : Host) (environ_SHELL : option string) :
  let shell := get_default_shell H environ_SHELL in
  let last := posix_path_name (default "/bin/bash" environ_SHELL) in
  (is_windows (get_platform H) = true /\ shell = "powershell")
  \/ (is_windows (get_platform H) = false
      /\ In shell ["bash"; "zsh"; "fish"]
      /\ (In last ["bash"; "zsh"; "fish"] -> shell = last)
      /\ (~ In last ["bash"; "zsh"; "fish"] -> shell = "bash")).
Proof.
  unfold get_default_shell. cbv zeta.
  destruct (is_windows (get_platform H)); [left; now split|right].
  split; [reflexivity|].
  set (n := posix_path_name _).
  destruct (existsb (String.eqb n) ["bash"; "zsh"; "fish"]) eqn:E.
  - apply existsb_exists in E. destruct E as (x & Hx & Heq).
    apply String.eqb_eq in Heq. subst x.
    split; [exact Hx|]. split; [reflexivity|]. intros Hn. now destruct Hn.
  - split; [now left|]. split; [|reflexivity].
    intros Hin. assert (existsb (String.eqb n) ["bash"; "zsh"; "fish"] = true)
      as E' by (apply existsb_exists; exists n; split; [exact Hin|apply String.eqb_refl]).
    congruence.
Qed.

Lemma error_prefix (s : string) : PyStr.startswith "Error: " ("Error: " ++ s) = true.
Proof. reflexivity. Qed.



(** ** Installing packages *)

Lemma or_else_truthy (a b : string) :
  PyStr.truthy b = true -> PyStr.truthy (PyStr.or_else a b) = true.
Proof.
  intros Hb. unfold PyStr.or_else. now destruct (PyStr.truthy a) eqn:E.
Qed.





Lemma run_command_logged (H : Host) cmd timeout check (w : World) msgs :
  (run_command H cmd timeout check (logged w msgs)).1
  = (run_command H cmd timeout check w).1.
Proof.
  unfold run_command. cbn [logged fs].
  destruct (exec H (fs w) cmd timeout) as [[code out err| |f|e] root'];
    try reflexivity.
  cbn beta iota zeta. now destruct (check && negb _).
Qed.

(** X8.  What an installation reports: the packages installed are those
    asked for when it succeeded and none when it failed; the message is
    never empty, and is an error text when it failed; and success is
    reported only when pip was run and ended with exit code 0. *)
Theorem install_result_invariant (H : Host) (packages : list string)
  (venv_path : option Path) (venv_name : option string)
  (requirements_file : option Path) (upgrade : bool) (w w' : World)
  (res : InstallResult.t) :
  devenv_venv_install H packages venv_path venv_name requirements_file upgrade w
  = (Ret res, w') ->
  InstallResult.packages_installed res
  = (if InstallResult.success res then packages else [])
  /\ PyStr.truthy (InstallResult.message res) = true
  /\ (InstallResult.success res = false ->
      PyStr.startswith "Error: " (InstallResult.message res) = true)
  /\ (InstallResult.success res = true ->
      exists t result,
        target_of H venv_path venv_name = Some t
        /\ (run_command H
              (pip_install_cmd H t upgrade requirements_file packages) 300 false
              w).1 = Ret result
        /\ returncode result = 0%Z).
Proof.
  unfold devenv_venv_install.
  destruct (target_of H venv_path venv_name) as [t|].
  2: { intros [= <- <-]. cbn. repeat split; discriminate. }
  unfold bind, read_fs. cbn beta iota.
  destruct (negb (_is_valid_venv H (fs w) t)).
  { intros [= <- <-]. cbn. repeat split; discriminate. }
  match goal with |- context [if ?b then _ else _] => destruct b end.
  { intros [= <- <-]. cbn. repeat split; discriminate. }
  destruct packages as [|p ps], requirements_file as [req|];
    try (intros [= <- <-]; cbn; repeat split; discriminate);
    rewrite ctx_send_logged; cbn beta iota;
    match goal with
    | |- context [run_command H ?c 300 false (logged w ?m)] =>
        pose proof (run_command_logged H c 300 false w m) as Hl;
        destruct (run_command H c 300 false (logged w m)) as [[result|e] w2];
        [|discriminate]
    end;
    cbn [fst] in Hl;
    (destruct (success result) eqn:Hs; cbn beta; rewrite ctx_send_logged;
     cbn beta iota; intros [= <- <-]; cbn;
     [ split; [reflexivity|]; split; [now apply or_else_truthy|];
       split; [discriminate|]; intros _; exists t, result;
       split; [reflexivity|]; split; [now symmetry|];
       now apply success_returncode
     | repeat split; discriminate ]).
Qed.

Lemma install_result_invariant_witness :
  exists res,
    (devenv_venv_install (Cases.installing (Scenario.prints "Successfully installed six"))
       ["six"] None (Some "proj-a") None false Scenario.start).1 = Ret res
    /\ InstallResult.success res = true
    /\ InstallResult.packages_installed res = ["six"]
    /\ PyStr.truthy (InstallResult.message res) = true.
Proof.
  pose (r := devenv_venv_install
               (Cases.installing (Scenario.prints "Successfully installed six"))
               ["six"] None (Some "proj-a") None false Scenario.start).
  assert (Hr : exists res, r.1 = Ret res /\ InstallResult.success res = true)
    by (vm_compute; eauto).
  destruct Hr as (res & Hr & Hs).
  destruct (install_result_invariant
              (Cases.installing (Scenario.prints "Successfully installed six"))
              ["six"] None (Some "proj-a") None false Scenario.start r.2 res)
    as (Hp & Hm & _).
  - rewrite <- Hr. apply surjective_pairing.
  - exists res. rewrite Hs in Hp. now repeat split.
Defined.

(** X9.  An installation raises exactly when running pip raises, and raises
    the same exception (a timeout after 300 seconds, for one): no result
    record is built for it. *)
Theorem install_raises_what_pip_raises (H : Host) (packages : list string)
  (venv_path : option Path) (venv_name : option string)
  (requirements_file : option Path) (upgrade : bool) (w : World) (e : exn) :
  (devenv_venv_install H packages venv_path venv_name requirements_file upgrade
     w).1 = Raise e ->
  exists t,
    target_of H venv_path venv_name = Some t
    /\ (run_command H (pip_install_cmd H t upgrade requirements_file packages)
          300 false w).1 = Raise e.
Proof.
  unfold devenv_venv_install.
  destruct (target_of H venv_path venv_name) as [t|]; [|discriminate].
  unfold bind, read_fs. cbn beta iota.
  destruct (negb (_is_valid_venv H (fs w) t)); [discriminate|].
  match goal with |- context [if ?b then _ else _] => destruct b end;
    [discriminate|].
  intros Hr. exists t. split; [reflexivity|].
  rewrite <- (run_command_logged H _ 300 false w
                [Info ("Installing packages into " ++ path_name t ++ "...")]).
  revert Hr.
  destruct packages as [|p ps], requirements_file as [req|]; try discriminate;
    rewrite ctx_send_logged; cbn beta iota;
    (destruct (run_command H _ 300 false (logged w _)) as [[result|e'] w2];
     [ destruct (success result); cbn beta; rewrite ctx_send_logged;
       cbn beta iota; discriminate
     | now intros [= ->] ]).
Qed.

Lemma install_raises_what_pip_raises_witness :
  exists t,
    target_of (Cases.installing TimedOut) None (Some "proj-a") = Some t
    /\ (run_command (Cases.installing TimedOut)
          (pip_install_cmd (Cases.installing TimedOut) t true None ["six"])
          300 false Scenario.start).1 = Raise TimeoutError.
Proof.
  apply (install_raises_what_pip_raises (Cases.installing TimedOut) ["six"] None
           (Some "proj-a") None true Scenario.start TimeoutError).
  reflexivity.
Defined.

(** ** Listing the packages *)

Lemma package_info_describes (pkg : Json.pyval) (info : PackageInfo.t) :
  package_info pkg = inr info <-> describes pkg info.
Proof.
  unfold describes, package_info. split.
  - destruct pkg as [| | | | |items|d]; try discriminate.
    destruct (dict_get (codes "name") d) as [n|] eqn:En; [|discriminate].
    destruct (dict_get (codes "version") d) as [v|] eqn:Ev; [|discriminate].
    destruct n; try discriminate. destruct v; try discriminate.
    intros [= <-]. exists d. split; [reflexivity|]. split; assumption.
  - intros (d & -> & Hn & Hv). rewrite Hn, Hv. destruct info; reflexivity.
Qed.

Lemma package_infos_of_describes (items : list Json.pyval) :
  forall infos,
    package_infos_of items = inr infos <-> Forall2 describes items infos.
Proof.
  induction items as [|pkg items IH]; intros infos; cbn [package_infos_of].
  - split; [intros [= <-]; constructor|intros Hf; now inversion Hf].
  - split.
    + destruct (package_info pkg) as [e|info] eqn:Ei; [discriminate|].
      destruct (package_infos_of items) as [e|rest]; [discriminate|].
      intros [= <-]. constructor; [now apply package_info_describes|now apply IH].
    + intros Hf. inversion Hf as [|? info ? rest Hd Hrest]; subst.
      apply package_info_describes in Hd. rewrite Hd.
      apply IH in Hrest. now rewrite Hrest.
Qed.

Lemma package_infos_of_raised (items : list Json.pyval) (e : packages_error) :
  package_infos_of items = inl e ->
  exists pkg, In pkg items /\ package_info pkg = inl e.
Proof.
  induction items as [|pkg items IH]; cbn [package_infos_of]; [discriminate|].
  destruct (package_info pkg) as [e'|info] eqn:Ei.
  - intros [= ->]. exists pkg. split; [now left|assumption].
  - destruct (package_infos_of items) as [e'|rest]; [|discriminate].
    intros [= ->]. destruct (IH eq_refl) as (p & Hin & Hp).
    exists p. split; [now right|assumption].
Qed.

(** X10.  The list of packages follows pip's output: for a JSON array, the
    list comprehension returns a list exactly when every element is an
    object with texts under [name] and [version], and then the list has one
    entry per element, in the order of the array, with those two texts. *)
Theorem packages_follow_the_array (items : list Json.pyval)
  (infos : list PackageInfo.t) :
  package_infos (Json.PList items) = inr infos <-> Forall2 describes items infos.
Proof. apply package_infos_of_describes. Qed.

(** X11.  The two readers of [pip list --format=json] agree: whenever the
    package lister builds a list from a decoded output, the count the Prober
    takes of the same output, its [len], is the length of that list. *)
Theorem count_agrees_with_listing (v : Json.pyval) (infos : list PackageInfo.t) :
  package_infos v = inr infos ->
  Json.len v = Some (Z.of_nat (length infos)).
Proof.
  unfold package_infos.
  destruct v as [| | | |s|items|d]; cbn [iterate Json.len]; try discriminate.
  - destruct s as [|c s]; [now intros [= <-]|discriminate].
  - intros Hi. apply package_infos_of_describes in Hi.
    now rewrite (Forall2_length _ _ _ Hi).
  - destruct d as [|[k x] d]; [now intros [= <-]|discriminate].
Qed.

Lemma count_agrees_with_listing_witness :
  exists v infos,
    Json.loads Scenario.two_packages = Json.Value v
    /\ package_infos v = inr infos
    /\ Json.len v = Some 2%Z.
Proof.
  pose (r := Json.loads Scenario.two_packages).
  assert (Hr : exists v infos,
             r = Json.Value v /\ package_infos v = inr infos /\ length infos = 2)
    by (vm_compute; eauto).
  destruct Hr as (v & infos & Hr & Hi & Hl).
  exists v, infos. split; [exact Hr|]. split; [exact Hi|].
  rewrite (count_agrees_with_listing v infos Hi), Hl. reflexivity.
Defined.


(** X13.  Only a decoding error is caught when the output of pip is read:
    when pip succeeds and prints a JSON array, the lister returns the
    entries the array describes, in order, if every element is well formed,
    and otherwise raises what reading the first malformed element raises,
    instead of returning the empty list with an error logged. *)
Theorem list_packages_raises_on_malformed_entry (H : Host)
  (venv_path : option Path) (venv_name : option string) (t : Path)
  (w w1 : World) (result : CommandResult) (items : list Json.pyval) :
  target_of H venv_path venv_name = Some t ->
  _is_valid_venv H (fs w) t = true ->
  run_command H (packages_cmd H t) 30 false w = (Ret result, w1) ->
  returncode result = 0%Z ->
  Json.loads (stdout result) = Json.Value (Json.PList items) ->
  match (devenv_venv_list_packages H venv_path venv_name w).1 with
  | inr infos => Forall2 describes items infos
  | inl e => exists pkg, In pkg items /\ package_info pkg = inl e
  end.
Proof.
  intros Ht Hv Hrun Hrc Hj. unfold devenv_venv_list_packages.
  rewrite Ht, Hv. cbn [negb]. rewrite Hrun, (success_true _ Hrc). cbn [negb].
  rewrite Hj. unfold package_infos. cbn [iterate].
  destruct (package_infos_of items) as [e|infos] eqn:Ei; cbn [fst].
  - now apply package_infos_of_raised.
  - now apply package_infos_of_describes.
Qed.

Lemma list_packages_raises_on_malformed_entry_witness :
  (devenv_venv_list_packages Cases.truncating None (Some "proj-a") Scenario.start).1
  = inl (KeyError "version")
  /\ exists pkg, package_info pkg = inl (KeyError "version").
Proof.
  pose (t := ["home"; "u"; ".venvs"; "proj-a"]).
  pose (r := run_command Cases.truncating (packages_cmd Cases.truncating t) 30
               false Scenario.start).
  pose (result := match r.1 with
                  | Ret x => x
                  | Raise _ => {| returncode := 1; stdout := EmptyString;
                                  stderr := EmptyString; command := EmptyString |}
                  end).
  pose (items := match Json.loads (stdout result) with
                 | Json.Value (Json.PList l) => l
                 | _ => []
                 end).
  assert (Hr : r = (Ret result, r.2)) by (vm_compute; reflexivity).
  assert (Hrc : returncode result = 0%Z) by (vm_compute; reflexivity).
  assert (Hj : Json.loads (stdout result) = Json.Value (Json.PList items))
    by (vm_compute; reflexivity).
  assert (Hl : (devenv_venv_list_packages Cases.truncating None (Some "proj-a")
                  Scenario.start).1 = inl (KeyError "version"))
    by (vm_compute; reflexivity).
  split; [exact Hl|].
  pose proof (list_packages_raises_on_malformed_entry Cases.truncating None
                (Some "proj-a") t Scenario.start r.2 result items eq_refl eq_refl
                Hr Hrc Hj) as T.
  rewrite Hl in T. destruct T as (pkg & _ & Hp). now exists pkg.
Defined.

(** ** Running a command *)

(** X14.  What [check=True] lets through: a call that returns has exit code
    0, or the executable was not found, in which case the result carries
    exit code 127, an empty output and the message [Command not found], and
    no [CommandError] is raised for it. *)
Theorem check_lets_a_missing_command_through (H : Host) (cmd : list string)
  (timeout : Z) (w w' : World) (r : CommandResult) :
  run_command H cmd timeout true w = (Ret r, w') ->
  returncode r = 0%Z
  \/ (returncode r = 127%Z
      /\ stdout r = EmptyString
      /\ exists filename,
           (exec H (fs w) cmd timeout).1 = NotFound filename
           /\ stderr r = ("Command not found: " ++ filename)%string).
Proof.
  unfold run_command.
  destruct (exec H (fs w) cmd timeout) as [[code out err| |f|e] root'];
    cbn beta iota zeta; try discriminate.
  - cbn [andb].
    match goal with |- context [success ?x] => destruct (success x) eqn:Hs end;
      cbn [negb]; [|discriminate].
    intros [= <- _]. left. now apply success_returncode.
  - intros [= <- _]. right. cbn. eauto.
Qed.

Lemma check_lets_a_missing_command_through_witness :
  exists r,
    (run_command Scenario.healthy ["docker"; "ps"] 60 true Scenario.start).1 = Ret r
    /\ returncode r = 127%Z
    /\ stderr r = "Command not found: docker".
Proof.
  pose (x := run_command Scenario.healthy ["docker"; "ps"] 60 true Scenario.start).
  assert (Hx : exists r, x.1 = Ret r /\ returncode r = 127%Z
                         /\ stderr r = "Command not found: docker")
    by (vm_compute; eauto).
  destruct Hx as (r & Hx & Hc & He).
  destruct (check_lets_a_missing_command_through Scenario.healthy ["docker"; "ps"]
              60 Scenario.start x.2 r) as [H0|(H127 & _ & _)].
  - rewrite <- Hx. apply surjective_pairing.
  - rewrite Hc in H0. discriminate.
  - exists r. now repeat split.
Defined.

(** ** Name patterns *)

Lemma glob_star (s : list ascii) :
  Fnmatch.glob_match [Fnmatch.Star] s = true.
Proof.
  induction s as [|c s IH]; [reflexivity|].
  cbn [Fnmatch.glob_match] in *. now rewrite IH, orb_true_r.
Qed.

Lemma translate_stars (l : list ascii) :
  forallb (Ascii.eqb "*") l = true ->
  Fnmatch.translate_from 0 l = repeat Fnmatch.Star (length l).
Proof.
  induction l as [|c l IH]; [reflexivity|].
  cbn [forallb]. intros [Hc Hl]%andb_prop.
  apply Ascii.eqb_eq in Hc. subst c.
  cbn [Fnmatch.translate_from length repeat]. cbn. now rewrite IH.
Qed.

Lemma compress_stars (n : nat) :
  Fnmatch.compress (repeat Fnmatch.Star (S n)) = [Fnmatch.Star].
Proof.
  induction n as [|n IH]; [reflexivity|].
  change (repeat Fnmatch.Star (S (S n)))
    with (Fnmatch.Star :: Fnmatch.Star :: repeat Fnmatch.Star n).
  cbn [Fnmatch.compress]. exact IH.
Qed.

Lemma normcase_stars (windows_host : bool) (pat : string) :
  forallb (Ascii.eqb "*") (list_ascii_of_string pat) = true ->
  Fnmatch.normcase windows_host pat = pat.
Proof.
  destruct windows_host; [|reflexivity]. unfold Fnmatch.normcase.
  induction pat as [|c pat IH]; [reflexivity|].
  cbn [list_ascii_of_string forallb]. intros [Hc Hl]%andb_prop.
  apply Ascii.eqb_eq in Hc. subst c.
  cbn [Fnmatch.map_chars]. now rewrite IH.
Qed.

Lemma fnmatch_stars (windows_host : bool) (name pat : string) :
  PyStr.truthy pat = true ->
  forallb (Ascii.eqb "*") (list_ascii_of_string pat) = true ->
  Fnmatch.fnmatch windows_host name pat = true.
Proof.
  intros Ht Hs. unfold Fnmatch.fnmatch, Fnmatch.fnmatchcase, Fnmatch.translate.
  rewrite (normcase_stars _ _ Hs), (translate_stars _ Hs).
  destruct pat as [|c pat]; [discriminate|].
  cbn [list_ascii_of_string length]. rewrite compress_stars. apply glob_star.
Qed.

Lemma filter_all {A} (f : A -> bool) (l : list A) :
  (forall x, f x = true) -> List.filter f l = l.
Proof.
  intros Hf. induction l as [|x l IH]; [reflexivity|].
  cbn [List.filter]. now rewrite Hf, IH.
Qed.

(** X17.  A pattern made of stars filters nothing: discovery with it finds
    what discovery without a pattern finds, names that start with a dot
    included. *)
Theorem star_pattern_selects_all (H : Host) (root : Fs.node) (working_dir : Path)
  (include_global : bool) (pat : string) :
  PyStr.truthy pat = true ->
  forallb (Ascii.eqb "*") (list_ascii_of_string pat) = true ->
  _discover_venvs H root working_dir include_global (Some pat)
  = _discover_venvs H root working_dir include_global None.
Proof.
  intros Ht Hs. rewrite discover_with_pattern, Ht.
  apply filter_all. intros p. now apply fnmatch_stars.
Qed.

Lemma star_pattern_selects_all_witness :
  _discover_venvs Scenario.healthy Scenario.root ["work"] false (Some "**")
  = [["work"; "venv"]; ["work"; ".venv"]].
Proof.
  rewrite (star_pattern_selects_all Scenario.healthy Scenario.root ["work"] false
             "**" eq_refl eq_refl).
  reflexivity.
Defined.

Lemma translate_plain (l : list ascii) :
  forallb (fun c => negb (special c)) l = true ->
  Fnmatch.translate_from 0 l = map Fnmatch.Lit l.
Proof.
  induction l as [|c l IH]; [reflexivity|].
  cbn [forallb]. intros [Hc Hl]%andb_prop. unfold special in Hc.
  cbn [Fnmatch.translate_from map].
  destruct (Ascii.eqb c "*"); [discriminate|].
  destruct (Ascii.eqb c "?"); [discriminate|].
  destruct (Ascii.eqb c "["); [discriminate|].
  now rewrite IH.
Qed.

Lemma compress_lits (l : list ascii) :
  Fnmatch.compress (map Fnmatch.Lit l) = map Fnmatch.Lit l.
Proof.
  induction l as [|c l IH]; [reflexivity|].
  cbn [map Fnmatch.compress]. now rewrite IH.
Qed.

Lemma glob_lits (pat : string) :
  forall name,
    Fnmatch.glob_match (map Fnmatch.Lit (list_ascii_of_string pat))
      (list_ascii_of_string name)
    = String.eqb pat name.
Proof.
  induction pat as [|a pat IH]; intros [|c name]; try reflexivity.
  cbn [list_ascii_of_string map Fnmatch.glob_match Fnmatch.tok_matches String.eqb].
  rewrite IH. now destruct (Ascii.eqb a c).
Qed.

Lemma plain_pattern (name pat : string) :
  plain pat = true -> Fnmatch.fnmatchcase name pat = String.eqb pat name.
Proof.
  intros Hp. unfold Fnmatch.fnmatchcase, Fnmatch.translate.
  rewrite (translate_plain _ Hp), compress_lits. apply glob_lits.
Qed.

Lemma normcase_special (c : ascii) :
  special (if Ascii.eqb c "/" then "092"%char else Fnmatch.lower c) = special c.
Proof. destruct c as [[] [] [] [] [] [] [] []]; reflexivity. Qed.

Lemma normcase_plain (windows_host : bool) (pat : string) :
  plain (Fnmatch.normcase windows_host pat) = plain pat.
Proof.
  destruct windows_host; [|reflexivity].
  unfold plain, Fnmatch.normcase.
  induction pat as [|c pat IH]; [reflexivity|].
  cbn [Fnmatch.map_chars list_ascii_of_string forallb].
  now rewrite normcase_special, IH.
Qed.

(** X18.  A pattern without star, question mark and opening bracket selects
    by name: discovery keeps the environments whose directory name is the
    pattern, exactly on POSIX, up to the case of letters on Windows. *)
Theorem plain_pattern_selects_by_name (H : Host) (root : Fs.node)
  (working_dir : Path) (include_global : bool) (pat : string) :
  PyStr.truthy pat = true ->
  plain pat = true ->
  _discover_venvs H root working_dir include_global (Some pat) =
    List.filter
      (fun p =>
         String.eqb (Fnmatch.normcase (is_windows (get_platform H)) pat)
           (Fnmatch.normcase (is_windows (get_platform H)) (path_name p)))
      (_discover_venvs H root working_dir include_global None).
Proof.
  intros Ht Hp. rewrite discover_with_pattern, Ht.
  apply filter_ext. intros p. unfold name_matches, Fnmatch.fnmatch.
  apply plain_pattern. now rewrite normcase_plain.
Qed.

Lemma plain_pattern_selects_by_name_witness :
  _discover_venvs Scenario.healthy Scenario.root ["work"] true (Some "proj-b")
  = [["home"; "u"; ".venvs"; "proj-b"]].
Proof.
  rewrite (plain_pattern_selects_by_name Scenario.healthy Scenario.root ["work"]
             true "proj-b" eq_refl eq_refl).
  reflexivity.
Defined.

(** ** Discovery keeps duplicates *)

Lemma entry_in (seg : string) (x : Fs.node) es :
  Fs.entry seg es = Some x -> In seg (map fst es).
Proof.
  induction es as [|[n y] es IH]; cbn [Fs.entry map fst]; [discriminate|].
  destruct (String.eqb n seg) eqn:E.
  - apply String.eqb_eq in E. now left.
  - intros Hx. right. now apply IH.
Qed.

Lemma child_in_iterdir (root : Fs.node) (p : Path) (seg : string) :
  Fs.path_exists root (p // seg) = true -> In (p // seg) (Fs.iterdir root p).
Proof.
  unfold Fs.path_exists, Fs.iterdir, path_div. rewrite lookup_app.
  destruct (Fs.lookup root p) as [[|es]|]; try discriminate.
  cbn [Fs.lookup]. destruct (Fs.entry seg es) as [x|] eqn:E; [|discriminate].
  intros _. apply entry_in in E. apply in_map_iff in E.
  destruct E as ([n y] & <- & Hin). apply in_map_iff. now exists (n, y).
Qed.

(** X19.  Discovery does not remove duplicates: when the working directory
    is the registry and the registry holds an environment named [venv] (or
    [.venv]), that environment is found twice, once as a local and once as
    a global one. *)
Theorem discovery_keeps_duplicates (H : Host) (root : Fs.node) (local : string) :
  In local local_venv_names ->
  is_venv_dir H root (get_default_venv_location H // local) = true ->
  exists before between after,
    _discover_venvs H root (get_default_venv_location H) true None =
      before ++ [get_default_venv_location H // local]
      ++ between ++ [get_default_venv_location H // local] ++ after.
Proof.
  intros Hl Hv. rewrite discover_without_pattern.
  set (registry := get_default_venv_location H) in *.
  assert (H1 : In (registry // local)
                 (List.filter (is_venv_dir H root)
                    [registry // "venv"; registry // ".venv"])).
  { apply List.filter_In. split; [|exact Hv].
    destruct Hl as [<-|[<-|[]]]; [now left|now right; left]. }
  assert (H2 : In (registry // local)
                 (List.filter (is_venv_dir H root) (Fs.iterdir root registry))).
  { apply List.filter_In. split; [|exact Hv].
    apply child_in_iterdir. apply is_dir_exists.
    unfold is_venv_dir in Hv. now apply andb_prop in Hv. }
  apply in_split in H1. destruct H1 as (a & b & ->).
  apply in_split in H2. destruct H2 as (c & d & ->).
  exists a, (b ++ c), d. now rewrite <- !app_assoc.
Qed.

Lemma discovery_keeps_duplicates_witness :
  let root :=
    Fs.Dir [("home", Fs.Dir [("u", Fs.Dir [(".venvs",
              Fs.Dir [("venv", Scenario.venv_tree)])])])] in
  _discover_venvs Scenario.healthy root ["home"; "u"; ".venvs"] true None
  = [["home"; "u"; ".venvs"; "venv"]; ["home"; "u"; ".venvs"; "venv"]].
Proof.
  cbv zeta.
  destruct (discovery_keeps_duplicates Scenario.healthy
              (Fs.Dir [("home", Fs.Dir [("u", Fs.Dir [(".venvs",
                         Fs.Dir [("venv", Scenario.venv_tree)])])])])
              "venv" (or_introl eq_refl) eq_refl) as (a & b & c & _).
  reflexivity.
Defined.

(** ** What probing and listing start *)

Lemma prober_effects (H : Host) (venv_path : Path) (w : World) :
  spawn_calls (_get_venv_info H venv_path w).2 =
    spawn_calls w
    ++ (if _is_valid_venv H (fs w) venv_path
        then [version_cmd H venv_path; packages_cmd H venv_path] else [])
  /\ ctx_log (_get_venv_info H venv_path w).2 = ctx_log w.
Proof.
  destruct (_is_valid_venv H (fs w) venv_path) eqn:Hvalid.
  2: { rewrite (prober_short_circuit _ _ _ Hvalid). cbn [snd].
       now rewrite app_nil_r. }
  destruct (version_probe H venv_path w) as [vr w1] eqn:Hv.
  destruct (packages_probe H venv_path w1) as [pr w2] eqn:Hp.
  pose proof (run_command_effects _ _ _ _ _ _ _ Hv) as [Hs1 Hl1].
  pose proof (run_command_effects _ _ _ _ _ _ _ Hp) as [Hs2 Hl2].
  assert (Hw : (_get_venv_info H venv_path w).2 = w2).
  { probe Hvalid Hv Hp.
    destruct pr as [rp|e]; [|reflexivity].
    destruct (success rp); [|reflexivity].
    destruct (Json.loads (stdout rp)) as [v|]; [|reflexivity].
    now destruct (Json.len v). }
  rewrite Hw, Hs2, Hs1, Hl2, Hl1. now rewrite <- app_assoc.
Qed.

(** X20.  Probing starts both probes or none: for a directory that holds an
    interpreter, exactly the version command and then the package command
    of that directory are started, whatever the first one gives and even
    when the Prober raises; for any other directory nothing is started.
    Nothing is logged. *)
Theorem prober_starts_both_probes_or_none (H : Host) (venv_path : Path)
  (w : World) :
  spawn_calls (_get_venv_info H venv_path w).2 =
    spawn_calls w
    ++ (if _is_valid_venv H (fs w) venv_path
        then [[path_str H (get_venv_python_path H venv_path); "--version"];
              [path_str H (get_venv_pip_path H venv_path); "list";
               "--format=json"]]
        else [])
  /\ ctx_log (_get_venv_info H venv_path w).2 = ctx_log w.
Proof. apply prober_effects. Qed.

Lemma run_all_spawns {A B} (f : A -> M B) (P : A -> list string -> Prop)
  (bound : nat) :
  (forall x w, exists new,
      spawn_calls (f x w).2 = spawn_calls w ++ new
      /\ Forall (P x) new /\ length new <= bound) ->
  forall l w,
  exists new,
    spawn_calls (run_all (map f l) w).2 = spawn_calls w ++ new
    /\ Forall (fun cmd => exists x, In x l /\ P x cmd) new
    /\ length new <= bound * length l.
Proof.
  intros Hf. induction l as [|x l IH]; intros w.
  - exists []. cbn. rewrite app_nil_r. split; [reflexivity|]. split; [constructor|lia].
  - cbn [map run_all].
    destruct (Hf x w) as (n1 & Hs1 & Hp1 & Hb1).
    destruct (f x w) as [o w1]. cbn [snd] in Hs1.
    destruct (IH w1) as (n2 & Hs2 & Hp2 & Hb2).
    destruct (run_all (map f l) w1) as [os w2]. cbn [snd] in *.
    exists (n1 ++ n2). split; [now rewrite Hs2, Hs1, <- app_assoc|]. split.
    + apply Forall_app. split.
      * eapply List.Forall_impl; [|exact Hp1]. intros c Hc. exists x. split; [now left|exact Hc].
      * eapply List.Forall_impl; [|exact Hp2]. intros c (y & Hy & Hc).
        exists y. split; [now right|exact Hc].
    + rewrite length_app. cbn [length]. lia.
Qed.

Lemma gather_world {A} (sched : list nat) (tasks : list (M A)) (w : World) :
  (gather sched tasks w).2 = (run_all tasks w).2.
Proof. unfold gather. now destruct (run_all tasks w). Qed.

Lemma probes_of_a_fan_out (H : Host) (sched : list nat) (venv_paths : list Path)
  (w : World) :
  exists new,
    spawn_calls (gather sched (map (_get_venv_info H) venv_paths) w).2
    = spawn_calls w ++ new
    /\ Forall (fun cmd => exists p,
                 In p venv_paths
                 /\ (cmd = version_cmd H p \/ cmd = packages_cmd H p)) new
    /\ length new <= 2 * length venv_paths.
Proof.
  rewrite gather_world.
  apply (run_all_spawns (_get_venv_info H)
           (fun p cmd => cmd = version_cmd H p \/ cmd = packages_cmd H p) 2).
  intros x w1. destruct (prober_effects H x w1) as [Hs _].
  destruct (_is_valid_venv H (fs w1) x).
  - exists [version_cmd H x; packages_cmd H x].
    split; [exact Hs|]. split; [|cbn; lia].
    constructor; [now left|]. constructor; [now right|constructor].
  - exists []. split; [exact Hs|]. split; [constructor|cbn; lia].
Qed.

(** X21.  Listing starts nothing but probes: every subprocess it starts is
    the version command or the package command of an environment it
    discovered, and there are at most two for each. *)
Theorem listing_starts_only_probes (H : Host) (sched : list nat)
  (working_dir : Path) (include_global : bool) (name_pattern : option string)
  (w : World) :
  let work_path :=
    if Fs.path_exists (fs w) working_dir then working_dir else getcwd H in
  let venv_paths :=
    _discover_venvs H (fs w) work_path include_global name_pattern in
  exists new,
    spawn_calls
      (devenv_venv_list H sched working_dir include_global name_pattern w).2
    = spawn_calls w ++ new
    /\ Forall (fun cmd => exists p,
                 In p venv_paths
                 /\ (cmd = version_cmd H p \/ cmd = packages_cmd H p)) new
    /\ length new <= 2 * length venv_paths.
Proof.
  cbv zeta. rewrite devenv_venv_list_unfold. cbv zeta.
  replace (if negb (Fs.path_exists (fs w) working_dir)
           then getcwd H else working_dir)
    with (if Fs.path_exists (fs w) working_dir then working_dir else getcwd H)
    by now destruct (Fs.path_exists (fs w) working_dir).
  set (venv_paths := _discover_venvs H (fs w) _ include_global name_pattern).
  destruct venv_paths as [|p ps] eqn:Hpaths.
  { exists []. cbn. rewrite app_nil_r. split; [reflexivity|].
    split; [constructor|lia]. }
  rewrite <- Hpaths.
  match goal with
  | |- context [gather sched ?tasks ?w0] =>
      destruct (probes_of_a_fan_out H sched venv_paths w0) as (new & Hs & Hp & Hb);
      destruct (gather sched tasks w0) as [[infos|e] w']
  end; cbn [snd logged spawn_calls] in *; exists new; auto.
Qed.

(** ** The order of completion *)

Lemma gather_any_schedule {A} (sched sched' : list nat) (tasks : list (M A))
  (w : World) :
  match gather sched tasks w with
  | (Ret results, w') => gather sched' tasks w = (Ret results, w')
  | (Raise _, w') => exists e', gather sched' tasks w = (Raise e', w')
  end.
Proof.
  destruct (run_all tasks w) as [outs w2] eqn:Hr.
  destruct (gather_spec sched tasks w w2 outs Hr) as (o & Hg & Ho).
  rewrite Hg. destruct o as [results|e].
  - subst outs. now apply gather_all_returned.
  - destruct Ho as (i & Hi).
    destruct (gather_one_raised sched' tasks w w2 outs i e Hr Hi) as (e' & j & Hg' & _).
    now exists e'.
Qed.

(** X22.  The order in which the probes complete does not change a listing
    that returns: under any other order of completion it returns the same
    descriptors and leaves the same world.  A listing that raises, raises
    under every order (possibly another of the exceptions). *)
Theorem listing_does_not_depend_on_schedule (H : Host) (sched sched' : list nat)
  (working_dir : Path) (include_global : bool) (name_pattern : option string)
  (w : World) :
  match devenv_venv_list H sched working_dir include_global name_pattern w with
  | (Ret ds, w') =>
      devenv_venv_list H sched' working_dir include_global name_pattern w
      = (Ret ds, w')
  | (Raise _, w') =>
      exists e',
        devenv_venv_list H sched' working_dir include_global name_pattern w
        = (Raise e', w')
  end.
Proof.
  rewrite !devenv_venv_list_unfold. cbv zeta.
  match goal with
  | |- context [match ?paths with [] => _ | _ :: _ => _ end] =>
      destruct paths as [|p ps]; [reflexivity|]
  end.
  match goal with
  | |- context [gather sched ?tasks ?w0] =>
      pose proof (gather_any_schedule sched sched' tasks w0) as Hg;
      destruct (gather sched tasks w0) as [[infos|e] w1]
  end.
  - now rewrite Hg.
  - destruct Hg as (e' & ->). now exists e'.
Qed.

(** ** The descriptors of a listing *)

Lemma prober_identity (H : Host) (venv_path : Path) (w w' : World) (d : VenvInfo) :
  _get_venv_info H venv_path w = (Ret d, w') ->
  name d = path_name venv_path
  /\ path d = path_str H venv_path
  /\ (0 <= packages_count d)%Z.
Proof.
  destruct (_is_valid_venv H (fs w) venv_path) eqn:Hvalid.
  2: { rewrite (prober_short_circuit _ _ _ Hvalid). intros [= <- _].
       cbn. repeat split; lia. }
  destruct (version_probe H venv_path w) as [vr w1] eqn:Hv.
  destruct (packages_probe H venv_path w1) as [pr w2] eqn:Hp.
  probe Hvalid Hv Hp.
  destruct pr as [rp|e]; [|intros [= <- _]; cbn; repeat split; lia].
  destruct (success rp); [|intros [= <- _]; cbn; repeat split; lia].
  destruct (Json.loads (stdout rp)) as [v|];
    [|intros [= <- _]; cbn; repeat split; lia].
  destruct v; cbn [Json.len]; try discriminate;
    intros [= <- _]; cbn; repeat split; lia.
Qed.

Lemma run_all_pointwise {A B} (f : A -> M B) (P : A -> outcome B -> Prop) :
  (forall x w o w', f x w = (o, w') -> P x o) ->
  forall l w outs w', run_all (map f l) w = (outs, w') -> Forall2 P l outs.
Proof.
  intros Hf. induction l as [|x l IH]; intros w outs w'; cbn [map run_all].
  - intros [= <- _]. constructor.
  - destruct (f x w) as [o w1] eqn:Ef.
    destruct (run_all (map f l) w1) as [os w2] eqn:Er.
    intros [= <- _]. constructor; [eapply Hf; eassumption|eapply IH; eassumption].
Qed.

(** X23.  A listing that returns describes what discovery found, one
    descriptor for each environment and in the order of discovery: the
    paths and the names of the descriptors are those of the discovered
    directories, and no count of packages is negative. *)
Theorem listing_follows_discovery (H : Host) (sched : list nat)
  (working_dir : Path) (include_global : bool) (name_pattern : option string)
  (w w' : World) (ds : list VenvInfo) :
  let work_path :=
    if Fs.path_exists (fs w) working_dir then working_dir else getcwd H in
  let venv_paths :=
    _discover_venvs H (fs w) work_path include_global name_pattern in
  devenv_venv_list H sched working_dir include_global name_pattern w = (Ret ds, w') ->
  map path ds = map (path_str H) venv_paths
  /\ map name ds = map path_name venv_paths
  /\ Forall (fun d => (0 <= packages_count d)%Z) ds.
Proof.
  cbv zeta. rewrite devenv_venv_list_unfold. cbv zeta.
  replace (if negb (Fs.path_exists (fs w) working_dir)
           then getcwd H else working_dir)
    with (if Fs.path_exists (fs w) working_dir then working_dir else getcwd H)
    by now destruct (Fs.path_exists (fs w) working_dir).
  set (venv_paths := _discover_venvs H (fs w) _ include_global name_pattern).
  destruct venv_paths as [|p ps] eqn:Hpaths.
  { intros [= <- _]. now repeat split. }
  rewrite <- Hpaths. clear Hpaths.
  match goal with
  | |- context [gather sched ?tasks ?w0] =>
      destruct (run_all tasks w0) as [outs w2] eqn:Hr;
      destruct (gather_spec sched tasks w0 w2 outs Hr) as (o & Hg & Ho);
      rewrite Hg
  end.
  destruct o as [infos|e]; [|discriminate].
  intros [= <- _]. subst outs.
  apply (run_all_pointwise (_get_venv_info H)
           (fun p o => match o with
                       | Ret d => name d = path_name p
                                  /\ path d = path_str H p
                                  /\ (0 <= packages_count d)%Z
                       | Raise _ => True
                       end)) in Hr.
  2: { intros x w0 [d|e] w1 Hx; [|exact I]. eapply prober_identity, Hx. }
  clear Hg. revert infos Hr.
  induction venv_paths as [|q qs IH]; intros infos Hf;
    inversion Hf as [|? o ? os Hq Hrest Heq1 Heq2]; subst.
  - destruct infos; [|discriminate]. now repeat split.
  - destruct infos as [|d infos]; [discriminate|].
    injection Heq2 as -> ->. destruct Hq as (Hn & Hp & Hc).
    destruct (IH infos Hrest) as (IH1 & IH2 & IH3).
    cbn [map]. rewrite Hn, Hp, IH1, IH2. repeat split. now constructor.
Qed.

Lemma listing_follows_discovery_witness :
  exists ds,
    (devenv_venv_list Scenario.healthy [2; 0; 1] ["work"] true (Some "proj-*")
       Scenario.start).1 = Ret ds
    /\ map path ds = ["/home/u/.venvs/proj-a"; "/home/u/.venvs/proj-b"]
    /\ map name ds = ["proj-a"; "proj-b"].
Proof.
  pose (r := devenv_venv_list Scenario.healthy [2; 0; 1] ["work"] true
               (Some "proj-*") Scenario.start).
  assert (Hr : exists ds, r.1 = Ret ds) by (vm_compute; eauto).
  destruct Hr as (ds & Hr).
  destruct (listing_follows_discovery Scenario.healthy [2; 0; 1] ["work"] true
              (Some "proj-*") Scenario.start r.2 ds) as (Hp & Hn & _).
  - rewrite <- Hr. apply surjective_pairing.
  - exists ds. split; [exact Hr|]. split; [exact Hp|exact Hn].
Defined.

(** ** Creating an environment *)

Lemma lookup_fresh_dirs (p : Path) :
  Fs.lookup (Fs.fresh_dirs p) p = Some (Fs.Dir []).
Proof.
  induction p as [|seg p IH]; [reflexivity|].
  cbn [Fs.fresh_dirs Fs.lookup Fs.entry]. now rewrite String.eqb_refl.
Qed.

Lemma entry_app_new (seg : string) (x : Fs.node) es :
  Fs.entry seg es = None -> Fs.entry seg (es ++ [(seg, x)]) = Some x.
Proof.
  induction es as [|[n y] es IH]; cbn [Fs.entry app].
  - now rewrite String.eqb_refl.
  - destruct (String.eqb n seg); [discriminate|exact IH].
Qed.

Lemma entry_app_old (seg : string) (x : Fs.node) es more :
  Fs.entry seg es = Some x -> Fs.entry seg (es ++ more) = Some x.
Proof.
  induction es as [|[n y] es IH]; cbn [Fs.entry app]; [discriminate|].
  destruct (String.eqb n seg); [trivial|exact IH].
Qed.

Lemma mkdir_parents_fresh (p : Path) :
  forall root root',
    Fs.path_exists root p = false ->
    Fs.mkdir_parents root p = Some root' ->
    Fs.lookup root' p = Some (Fs.Dir []).
Proof.
  unfold Fs.path_exists.
  induction p as [|seg p IH]; intros root root' Hx Hm; [discriminate|].
  destruct root as [|es]; [discriminate|].
  cbn [Fs.mkdir_parents Fs.lookup] in *.
  destruct (Fs.entry seg es) as [child|] eqn:E.
  - destruct (Fs.mkdir_parents child p) as [child'|] eqn:Ec; [|discriminate].
    injection Hm as <-. cbn [Fs.lookup]. rewrite entry_set_same.
    now apply (IH child).
  - injection Hm as <-. cbn [Fs.lookup]. rewrite (entry_app_new _ _ _ E).
    apply lookup_fresh_dirs.
Qed.

(** A tree grows into another when every path of the first leads, in the
    second, to a node of the same kind. *)
Definition grows (n n' : Fs.node) : Prop :=
  forall p m,
    Fs.lookup n p = Some m ->
    exists m', Fs.lookup n' p = Some m' /\ (m = Fs.File <-> m' = Fs.File).

Lemma grows_refl (n : Fs.node) : grows n n.
Proof. intros p m Hm. now exists m. Qed.

Lemma mkdir_parents_grows (q : Path) :
  forall root root', Fs.mkdir_parents root q = Some root' -> grows root root'.
Proof.
  induction q as [|seg q IH]; intros root root' Hm.
  - destruct root; [discriminate|]. injection Hm as <-. apply grows_refl.
  - destruct root as [|es]; [discriminate|]. cbn [Fs.mkdir_parents] in Hm.
    destruct (Fs.entry seg es) as [child|] eqn:E.
    + destruct (Fs.mkdir_parents child q) as [child'|] eqn:Ec; [|discriminate].
      injection Hm as <-. intros p m Hp. destruct p as [|s p].
      * injection Hp as <-. eexists. split; [reflexivity|]. split; discriminate.
      * cbn [Fs.lookup] in *. destruct (String.eqb seg s) eqn:Es.
        -- apply String.eqb_eq in Es. subst s. rewrite E in Hp.
           rewrite entry_set_same. exact (IH _ _ Ec p m Hp).
        -- rewrite (entry_set_other _ _ _ _ Es). now exists m.
    + injection Hm as <-. intros p m Hp. destruct p as [|s p].
      * injection Hp as <-. eexists. split; [reflexivity|]. split; discriminate.
      * cbn [Fs.lookup] in *.
        destruct (Fs.entry s es) as [c|] eqn:Ec; [|discriminate].
        rewrite (entry_app_old _ _ _ _ Ec). now exists m.
Qed.

Lemma grows_exists (n n' : Fs.node) (p : Path) :
  grows n n' -> Fs.path_exists n p = true -> Fs.path_exists n' p = true.
Proof.
  unfold Fs.path_exists. intros Hg Hp.
  destruct (Fs.lookup n p) as [m|] eqn:E; [|discriminate].
  destruct (Hg p m E) as (m' & -> & _). reflexivity.
Qed.

Lemma grows_follow (root root' : Fs.node) (p : Path) :
  grows root root' ->
  forall place reached,
    follow root place p = Some reached -> follow root' place p = Some reached.
Proof.
  intros Hg. induction p as [|seg p IH]; intros place reached; cbn [follow].
  - destruct (Fs.lookup root place) as [m|] eqn:E; [|discriminate].
    destruct (Hg place m E) as (m' & -> & _). trivial.
  - destruct (Fs.lookup root place) as [[|es]|] eqn:E; try discriminate.
    destruct (Hg place _ E) as (m' & E' & Hk). rewrite E'.
    destruct m' as [|es']; [discriminate (proj2 Hk eq_refl)|].
    destruct (String.eqb seg ".."); [apply IH|].
    destruct (Fs.entry seg es) as [c|] eqn:Ec; [|discriminate].
    assert (Hc : Fs.lookup root (place ++ [seg]) = Some c).
    { rewrite lookup_app, E. cbn [Fs.lookup]. now rewrite Ec. }
    destruct (Hg _ _ Hc) as (c' & Hc' & _).
    rewrite lookup_app, E' in Hc'. cbn [Fs.lookup] in Hc'.
    destruct (Fs.entry seg es') as [x|]; [apply IH|discriminate].
Qed.

Lemma grows_exists_unresolved (H : Host) (root root' : Fs.node) (p : Path) :
  grows root root' ->
  exists_unresolved H root p = true -> exists_unresolved H root' p = true.
Proof.
  unfold exists_unresolved. intros Hg.
  destruct (is_windows (get_platform H)); [now apply grows_exists|].
  destruct (follow root [] p) as [l|] eqn:E; [|discriminate].
  now rewrite (grows_follow _ _ _ Hg _ _ E).
Qed.

Lemma unresolved_prober_spawns (H : Host) (venv_path : Path) (w : World) :
  exists new,
    spawn_calls (_get_venv_info_unresolved H venv_path w).2 = spawn_calls w ++ new
    /\ Forall (fun cmd => cmd = version_cmd H (resolve venv_path)
                          \/ cmd = packages_cmd H (resolve venv_path)) new.
Proof.
  unfold _get_venv_info_unresolved, bind, ret.
  destruct (prober_effects H (resolve venv_path) w) as [Hs _].
  destruct (_get_venv_info H (resolve venv_path) w) as [[d|e] w1];
    cbn [snd] in *; rewrite Hs;
    (destruct (_is_valid_venv H (fs w) (resolve venv_path));
     [ eexists; split; [reflexivity|];
       constructor; [now left|]; constructor; [now right|constructor]
     | exists []; split; [reflexivity|constructor] ]).
Qed.

(** The rest of a creation, once the parent directory is there. *)
Lemma create_on_existing_target (H : Host) (name : string) (path : option Path)
  (python_executable : option string) (with_pip : bool) (w : World) :
  let parent := default (get_default_venv_location H) path in
  let target := path_join H parent name in
  Fs.path_exists (fs w) parent = true ->
  exists_unresolved H (fs w) target = true ->
  devenv_venv_create H name path python_executable with_pip w =
    if _is_valid_venv H (fs w) (resolve target)
    then _get_venv_info_unresolved H target
           (logged w [Warning ("Venv already exists at " ++ path_str H target)])
    else (Ret {| name := name; path := path_str H target;
                 python_version := "unknown"; packages_count := 0;
                 is_valid := false |}, w).
Proof.
  cbv zeta. intros Hp Hx. unfold devenv_venv_create.
  replace (match path with
           | Some p => p
           | None => get_default_venv_location H
           end) with (default (get_default_venv_location H) path)
    by now destruct path.
  set (parent := default _ path) in *.
  unfold bind at 1. unfold read_fs at 1. rewrite Hp. cbn [negb].
  unfold bind at 1. unfold ret at 1.
  unfold bind at 1. unfold read_fs at 1. rewrite Hx.
  destruct (_is_valid_venv H (fs w) (resolve (path_join H parent name)));
    [|reflexivity].
  unfold bind at 1. now rewrite ctx_send_logged.
Qed.

(** X15.  Creation never runs the venv module on a target that exists: the
    only subprocesses it may start are the two probes of the target.  When
    the parent directory exists too, a target that is not a valid
    environment leaves the world as it was, with an unusable descriptor, and
    a valid one is warned about and probed, nothing else. *)
Theorem create_leaves_existing_target_alone (H : Host) (name : string)
  (path : option Path) (python_executable : option string) (with_pip : bool)
  (w : World) :
  let parent := default (get_default_venv_location H) path in
  let target := path_join H parent name in
  exists_unresolved H (fs w) target = true ->
  (exists new,
     spawn_calls
       (devenv_venv_create H name path python_executable with_pip w).2
     = spawn_calls w ++ new
     /\ Forall (fun cmd => cmd = version_cmd H (resolve target)
                           \/ cmd = packages_cmd H (resolve target)) new)
  /\ (Fs.path_exists (fs w) parent = true ->
      devenv_venv_create H name path python_executable with_pip w =
        if _is_valid_venv H (fs w) (resolve target)
        then _get_venv_info_unresolved H target
               (logged w [Warning ("Venv already exists at "
                                   ++ path_str H target)])
        else (Ret {| name := name; path := path_str H target;
                     python_version := "unknown"; packages_count := 0;
                     is_valid := false |}, w)).
Proof.
  cbv zeta. intros Hx.
  split; [|intros Hp; now apply create_on_existing_target].
  destruct (Fs.path_exists (fs w) (default (get_default_venv_location H) path))
    eqn:Hp.
  - rewrite (create_on_existing_target H name path python_executable with_pip w
               Hp Hx).
    destruct (_is_valid_venv H (fs w) _).
    + destruct (unresolved_prober_spawns H
                  (path_join H (default (get_default_venv_location H) path) name)
                  (logged w [Warning ("Venv already exists at "
                     ++ path_str H (path_join H
                          (default (get_default_venv_location H) path) name))]))
        as (new & Hs & Hf).
      exists new. split; [exact Hs|exact Hf].
    + exists []. cbn [snd]. rewrite app_nil_r. split; [reflexivity|constructor].
  - unfold devenv_venv_create.
    replace (match path with
             | Some p => p
             | None => get_default_venv_location H
             end) with (default (get_default_venv_location H) path)
      by now destruct path.
    set (parent := default _ path) in *.
    unfold bind at 1. unfold read_fs at 1. rewrite Hp. cbn [negb].
    unfold bind at 1. unfold bind at 1. rewrite ctx_send_logged.
    unfold mkdir_parents. cbn [logged fs].
    destruct (Fs.mkdir_parents (fs w) parent) as [root'|] eqn:Hm.
    2: { exists []. cbn [snd logged spawn_calls]. rewrite app_nil_r.
         split; [reflexivity|constructor]. }
    pose proof (grows_exists_unresolved H _ _ _ (mkdir_parents_grows _ _ _ Hm) Hx)
      as Hx'.
    unfold bind at 1. unfold read_fs at 1. cbn [fs]. rewrite Hx'.
    destruct (_is_valid_venv H root' _).
    + unfold bind at 1. rewrite ctx_send_logged.
      match goal with
      | |- context [_get_venv_info_unresolved H ?t ?w0] =>
          destruct (unresolved_prober_spawns H t w0) as (new & Hs & Hf)
      end.
      exists new. split; [exact Hs|exact Hf].
    + exists []. cbn [snd spawn_calls]. rewrite app_nil_r.
      split; [reflexivity|constructor].
Qed.

Lemma create_leaves_existing_target_alone_witness :
  (exists new,
     spawn_calls
       (devenv_venv_create Scenario.healthy "../envs/./beta" (Some ["work"]) None
          true Scenario.start).2 = [] ++ new
     /\ Forall (fun cmd => cmd = version_cmd Scenario.healthy ["envs"; "beta"]
                           \/ cmd = packages_cmd Scenario.healthy ["envs"; "beta"])
          new)
  /\ devenv_venv_create Scenario.healthy "../envs/./beta" (Some ["work"]) None true
       Scenario.start
     = (Ret {| name := "../envs/./beta"; path := "/work/../envs/beta";
               python_version := "unknown"; packages_count := 0;
               is_valid := false |}, Scenario.start).
Proof.
  destruct (create_leaves_existing_target_alone Scenario.healthy "../envs/./beta"
              (Some ["work"]) None true Scenario.start eq_refl) as [Hs He].
  split; [exact Hs|exact (He eq_refl)].
Defined.

(** X16.  A creation that fails leaves its directory behind: when the parent
    directory is missing it is created before the interpreter is looked for;
    when the target is then not there and the interpreter is not found, the
    descriptor is unusable, the venv module was not run, and the parent
    directory is there, empty. *)
Theorem failed_create_leaves_parent (H : Host) (name : string)
  (path : option Path) (python_executable : option string) (with_pip : bool)
  (w : World) (root' : Fs.node) (filename : string) :
  let parent := default (get_default_venv_location H) path in
  let target := path_join H parent name in
  let python := default "python" python_executable in
  Fs.path_exists (fs w) parent = false ->
  Fs.mkdir_parents (fs w) parent = Some root' ->
  exists_unresolved H root' target = false ->
  exec H root' [python; "--version"] 10 = (NotFound filename, root') ->
  exists d w',
    devenv_venv_create H name path python_executable with_pip w = (Ret d, w')
    /\ is_valid d = false
    /\ python_version d
       = ("Error: Python executable '" ++ python ++ "' not found")%string
    /\ spawn_calls w' = spawn_calls w ++ [[python; "--version"]]
    /\ fs w' = root'
    /\ Fs.lookup (fs w') parent = Some (Fs.Dir []).
Proof.
  cbv zeta. intros Hx Hm Ht Hexec. unfold devenv_venv_create.
  replace (match path with
           | Some p => p
           | None => get_default_venv_location H
           end) with (default (get_default_venv_location H) path)
    by now destruct path.
  replace (match python_executable with
           | Some p => p
           | None => "python"
           end) with (default "python" python_executable)
    by now destruct python_executable.
  set (parent := default _ path) in *.
  set (python := default _ python_executable) in *.
  pose proof (mkdir_parents_fresh _ _ _ Hx Hm) as Hfresh.
  unfold bind at 1. unfold read_fs at 1. rewrite Hx. cbn [negb].
  unfold bind at 1. unfold bind at 1. rewrite ctx_send_logged.
  unfold mkdir_parents. cbn [logged fs]. rewrite Hm.
  unfold bind at 1. unfold read_fs at 1. cbn [fs]. rewrite Ht.
  unfold bind at 1. unfold run_command at 1. cbn [fs].
  rewrite Hexec. cbn beta iota zeta. cbn [success returncode].
  cbn [Z.eqb negb]. unfold ret.
  eexists _, _. split; [reflexivity|]. cbn.
  repeat (split; [reflexivity|]). exact Hfresh.
Qed.

Lemma failed_create_leaves_parent_witness :
  let H := Scenario.host ["home"; "u"] (NotFound "python") TimedOut in
  exists d w',
    devenv_venv_create H "fresh" None None true
      (Scenario.world Scenario.before_create) = (Ret d, w')
    /\ is_valid d = false
    /\ Fs.lookup (fs w') ["home"; "u"; ".venvs"] = Some (Fs.Dir []).
Proof.
  cbv zeta.
  destruct (failed_create_leaves_parent
              (Scenario.host ["home"; "u"] (NotFound "python") TimedOut)
              "fresh" None None true (Scenario.world Scenario.before_create)
              (Fs.Dir [("home", Fs.Dir [("u", Fs.Dir [(".venvs", Fs.Dir [])])])])
              "python" eq_refl eq_refl eq_refl eq_refl)
    as (d & w' & Hc & Hv & _ & _ & _ & Hl).
  exists d, w'. split; [exact Hc|]. split; [exact Hv|exact Hl].
Defined.
